(** * Geth multi-node provisioner: a shallow embedding of [main.py]

    The development follows the layout of the program:

    - [PyStr]: the Python string and integer primitives the program uses
      ([str.lower], [str.replace], [str.strip], [str.splitlines], [in],
      [re.search], [os.path.join], [str], [hex]);
    - [Genesis]: [build_clique_genesis] and the byte layout of [extraData];
    - [Ports]: [get_node_http_port] and [get_node_p2p_port];
    - [Exec]: the effect model (external processes, the administrative RPC
      channel, the clock, the files the program writes) as a state and
      error monad that also collects the trace of external actions;
    - [Provision]: [create_account], [init_nodes], [init_geth_datadir],
      [start_geth_node], [get_enode_via_rpc], [add_peer_via_rpc] and
      [provision_cluster].

    Text is modelled as strings of 8-bit characters read as the code points
    0..255.  Integers are [Z].  The clock counts microseconds; it never
    goes back, and [time.sleep(n)] takes at least [n] seconds.  The files
    the program writes are always writable, and building a [Web3] object
    has no effect.  The only unbounded loop, in [get_enode_via_rpc], takes
    fuel: a run that uses it up is reported as still spinning, never as a
    result.

    The definitions come first ([PyStr] to [Scenarios]); the facts about
    them follow, with the statements about whole runs in [Claims]. *)

From Stdlib Require Import ZArith Lia List Ascii String Bool Sorted.
From Stdlib Require Import DecimalString HexadecimalString DecimalZ HexadecimalZ.
From stdpp Require Import base list gmap strings.

Local Open Scope Z_scope.

(* ===================================================================== *)
(** * Python string and integer primitives *)
(* ===================================================================== *)

Module PyStr.

(** Code point of a character. *)
Definition ord (c : ascii) : nat := nat_of_ascii c.

Definition between (lo hi n : nat) : bool := Nat.leb lo n && Nat.leb n hi.

(** [str.lower] on one character: A..Z and the upper-case letters of the
    Latin-1 block (0xC0..0xDE without 0xD7) move up by 32. *)
Definition is_upper (c : ascii) : bool :=
  between 65 90 (ord c)
  || (between 192 222 (ord c) && negb (Nat.eqb (ord c) 215)).

Definition lower_char (c : ascii) : ascii :=
  if is_upper c then ascii_of_nat (ord c + 32) else c.

(** [s.lower()] *)
Fixpoint lower (s : string) : string :=
  match s with
  | EmptyString => EmptyString
  | String c r => String (lower_char c) (lower r)
  end.

(** [s.replace(old, new)] for the empty [old]: [new] goes before every
    character and at the end. *)
Fixpoint replace_empty (new s : string) : string :=
  match s with
  | EmptyString => new
  | String c r => new +:+ String c (replace_empty new r)
  end.

(** [s.replace(old, new)] for a non-empty [old]: scan from the left; at a
    match emit [new] and skip the rest of the match ([skip] characters). *)
Fixpoint replace_from (old new s : string) (skip : nat) : string :=
  match s with
  | EmptyString => EmptyString
  | String c r =>
      match skip with
      | S k => replace_from old new r k
      | O =>
          if String.prefix old s
          then new +:+ replace_from old new r (String.length old - 1)
          else String c (replace_from old new r 0)
      end
  end.

Definition replace (old new s : string) : string :=
  match old with
  | EmptyString => replace_empty new s
  | _ => replace_from old new s 0
  end.

(** [s * n] *)
Fixpoint repeat_str (s : string) (n : nat) : string :=
  match n with
  | O => EmptyString
  | S k => s +:+ repeat_str s k
  end.

(** ["".join(l)] *)
Fixpoint join_empty (l : list string) : string :=
  match l with
  | [] => EmptyString
  | s :: r => s +:+ join_empty r
  end.

(** Characters [str.strip] removes: 0x09..0x0D, 0x1C..0x20, 0x85, 0xA0. *)
Definition is_space (c : ascii) : bool :=
  between 9 13 (ord c) || between 28 32 (ord c)
  || Nat.eqb (ord c) 133 || Nat.eqb (ord c) 160.

Fixpoint lstrip (s : string) : string :=
  match s with
  | EmptyString => EmptyString
  | String c r => if is_space c then lstrip r else s
  end.

(** [rstrip] keeps a character when something that is not a space follows
    it or it is not a space itself. *)
Fixpoint rstrip (s : string) : string :=
  match s with
  | EmptyString => EmptyString
  | String c r =>
      match rstrip r with
      | EmptyString => if is_space c then EmptyString else String c EmptyString
      | r' => String c r'
      end
  end.

(** [s.strip()] *)
Definition strip (s : string) : string := rstrip (lstrip s).

(** Line boundaries of [str.splitlines] below code point 256: LF, CR,
    CR LF, VT, FF, FS, GS, RS, NEL. *)
Definition is_linebreak (c : ascii) : bool :=
  between 10 13 (ord c) || between 28 30 (ord c) || Nat.eqb (ord c) 133.

(** [splitlines_go s cur]: [cur] is the current line, reversed. *)
Fixpoint splitlines_go (s : string) (cur : list ascii) : list string :=
  match s with
  | EmptyString =>
      match cur with
      | [] => []
      | _ => [string_of_list_ascii (rev cur)]
      end
  | String c r =>
      if is_linebreak c then
        let rest :=
          match r with
          | String c' r' =>
              if Nat.eqb (ord c) 13 && Nat.eqb (ord c') 10
              then splitlines_go r' []
              else splitlines_go r []
          | EmptyString => splitlines_go r []
          end in
        string_of_list_ascii (rev cur) :: rest
      else splitlines_go r (c :: cur)
  end.

(** [s.splitlines()] *)
Definition splitlines (s : string) : list string := splitlines_go s [].

(** [sub in s] *)
Fixpoint contains (sub s : string) : bool :=
  String.prefix sub s ||
  match s with
  | EmptyString => false
  | String _ r => contains sub r
  end.

(** The class [[0-9a-fA-F]]. *)
Definition is_hex (c : ascii) : bool :=
  between 48 57 (ord c) || between 97 102 (ord c) || between 65 70 (ord c).

(** The longest run of hexadecimal digits at the head of [s]. *)
Fixpoint take_hex (s : string) : string :=
  match s with
  | EmptyString => EmptyString
  | String c r => if is_hex c then String c (take_hex r) else EmptyString
  end.

(** [re.search(r'0x[0-9a-fA-F]+', s)]: the leftmost position where "0x" is
    followed by at least one hexadecimal digit; the match is greedy. *)
Fixpoint search_0x_hex (s : string) : option string :=
  match s with
  | EmptyString => None
  | String c r =>
      match c, r with
      | "0"%char, String "x"%char r' =>
          match take_hex r' with
          | EmptyString => search_0x_hex r
          | h => Some ("0x" +:+ h)
          end
      | _, _ => search_0x_hex r
      end
  end.

Definition ends_with_slash (s : string) : bool :=
  match rev (list_ascii_of_string s) with
  | c :: _ => Ascii.eqb c "/"
  | [] => false
  end.

(** [os.path.join(a, b)] (POSIX). *)
Definition path_join (a b : string) : string :=
  if String.prefix "/" b then b
  else if (String.length a =? 0)%nat || ends_with_slash a then a +:+ b
  else a +:+ "/" +:+ b.

(** [path_join a b] for a relative [b] is [dir_prefix a +:+ b]. *)
Definition dir_prefix (a : string) : string :=
  if (String.length a =? 0)%nat || ends_with_slash a then a else a +:+ "/".

(** All characters of [s] pass the test [p]. *)
Fixpoint forall_chars (p : ascii -> bool) (s : string) : bool :=
  match s with
  | EmptyString => true
  | String c r => p c && forall_chars p r
  end.

Definition not_slash (c : ascii) : bool := negb (Ascii.eqb c "/").

(** [str(n)] for an integer. *)
Definition str (n : Z) : string :=
  DecimalString.NilEmpty.string_of_int (Z.to_int n).

(** [hex(n)] *)
Definition hex (n : Z) : string :=
  match Z.to_hex_int n with
  | Hexadecimal.Pos d => "0x" +:+ HexadecimalString.NilEmpty.string_of_uint d
  | Hexadecimal.Neg d => "-0x" +:+ HexadecimalString.NilEmpty.string_of_uint d
  end.

(** [range(lo, hi)] *)
Definition range (lo hi : Z) : list Z :=
  map (fun k => lo + Z.of_nat k) (seq 0 (Z.to_nat (hi - lo))).

End PyStr.

(* ===================================================================== *)
(** * Genesis builder *)
(* ===================================================================== *)

Module Genesis.

(** The dictionary [build_clique_genesis] returns; the two empty
    dictionaries ("ethash" and "alloc") are empty association lists. *)
Record genesis := mk_genesis {
  config_chainId : Z;
  config_clique_period : Z;
  config_clique_epoch : Z;
  config_ethash : list (string * string);
  nonce : string;
  timestamp : string;
  extraData : string;
  gasLimit : string;
  difficulty : string;
  mixhash : string;
  coinbase : string;
  alloc : list (string * string)
}.

Definition DEFAULT_GAS_LIMIT : Z := 8000000.

Definition build_clique_genesis
    (chainId : Z) (signer_addresses : list string) (gasLimit : Z) : genesis :=
  let vanity := PyStr.repeat_str "00" 32 in
  let signers_hex :=
    PyStr.join_empty
      (map (fun addr => PyStr.replace "0x" "" (PyStr.lower addr))
           signer_addresses) in
  let tail := PyStr.repeat_str "00" 65 in
  let extra := "0x" +:+ vanity +:+ signers_hex +:+ tail in
  {| config_chainId := chainId;
     config_clique_period := 1;
     config_clique_epoch := 30000;
     config_ethash := [];
     nonce := "0x0";
     timestamp := "0x0";
     extraData := extra;
     gasLimit := PyStr.hex gasLimit;
     difficulty := "0x1";
     mixhash :=
       "0x0000000000000000000000000000000000000000000000000000000000000000";
     coinbase := "0x0000000000000000000000000000000000000000";
     alloc := [] |}.

(** ** Reading a hexadecimal rendering back as bytes

    These definitions are not part of the program: they say what "the
    bytes encoded by a hex string" means. *)

Definition hex_val (c : ascii) : option Z :=
  let n := PyStr.ord c in
  if PyStr.between 48 57 n then Some (Z.of_nat n - 48)
  else if PyStr.between 97 102 n then Some (Z.of_nat n - 87)
  else if PyStr.between 65 70 n then Some (Z.of_nat n - 55)
  else None.

Fixpoint hex_decode (s : string) : option (list Z) :=
  match s with
  | EmptyString => Some []
  | String h (String l r) =>
      match hex_val h, hex_val l, hex_decode r with
      | Some a, Some b, Some bs => Some (16 * a + b :: bs)
      | _, _, _ => None
      end
  | String _ EmptyString => None
  end.

(** The bytes behind a "0x"-prefixed hex string. *)
Definition bytes_of_0x (s : string) : option (list Z) :=
  match s with
  | String "0" (String "x" h) => hex_decode h
  | _ => None
  end.

(** An account address: "0x" and 40 hexadecimal digits, that is 20 bytes. *)
Definition address_bytes (addr : string) : option (list Z) :=
  match bytes_of_0x addr with
  | Some bs => if (length bs =? 20)%nat then Some bs else None
  | None => None
  end.

(** Strings without the letter x. *)
Fixpoint no_x (s : string) : Prop :=
  match s with
  | EmptyString => True
  | String c r => c <> "x"%char /\ no_x r
  end.

End Genesis.

(* ===================================================================== *)
(** * Port assignment *)
(* ===================================================================== *)

Module Ports.

Definition HTTP_BASE : Z := 8545.
Definition P2P_BASE : Z := 30303.

Definition get_node_http_port (idx : Z) : Z := HTTP_BASE + (idx - 1).
Definition get_node_p2p_port (idx : Z) : Z := P2P_BASE + (idx - 1).

End Ports.


(* ===================================================================== *)
(** * Effect model *)
(* ===================================================================== *)

Module Exec.

(** [subprocess.CompletedProcess] *)
Record CompletedProcess := mk_cp {
  returncode : Z;
  stdout : string;
  stderr : string
}.

(** An administrative RPC call returns a value or raises. *)
Inductive rpc_result (A : Type) : Type :=
  | RpcReturn (a : A)
  | RpcRaise.
Arguments RpcReturn {A} a.
Arguments RpcRaise {A}.

(** The dictionary [cluster_meta]. *)
Record cluster_meta := mk_meta {
  meta_timestamp : Z;
  meta_num_nodes : Z;
  meta_signers : list string;
  meta_genesis : string;
  meta_pids : list string
}.

(** What the program stores in a file: plain text, or the object handed to
    [json.dump]. *)
Inductive content : Type :=
  | Text (s : string)
  | JsonGenesis (g : Genesis.genesis)
  | JsonCluster (m : cluster_meta).

(** The lines the program prints. *)
Inductive log : Type :=
  | Log_cmd (cmd : string)
  | Log_created (i : Z) (addr : string)
  | Log_genesis_written (path : string)
  | Log_init_stderr (err : string)
  | Log_start (idx : Z) (pid logfile : string)
  | Log_add_peer_error
  | Log_signers (addrs : list string)
  | Log_boot_enode (enode : string)
  | Log_add_peer (idx : Z) (ok : bool).

(** External actions, in the order the program performs them. *)
Inductive event : Type :=
  | EvPrint (l : log)
  | EvMakedirs (path : string)
  | EvWrite (path : string) (c : content)
  | EvRun (cmd : string) (cp : CompletedProcess)
  | EvPopen (cmd cwd out : string)
  | EvNodeInfo (port : Z) (r : rpc_result (option string))
  | EvAddPeer (port : Z) (enode : string) (r : rpc_result bool)
  | EvSleep (secs : Z).

(** The environment.  Every oracle is indexed by the number of external
    actions performed before it, so an answer may depend on everything
    that happened earlier.
    - [w_run k cmd]: what [subprocess.run(cmd, shell=True)] returns;
    - [w_popen k cmd cwd]: the standard output [Popen(...).communicate()]
      collects;
    - [w_node_info k port]: [w3.geth.admin.node_info().get("enode")] on the
      node at [port] ([None] when the key is missing), or an exception;
    - [w_add_peer k port enode]: [w3.geth.admin.add_peer(enode)];
    - [w_elapse k]: the microseconds the k-th action takes on top of any
      delay it asks for. *)
Record World := mk_world {
  w_run : nat -> string -> CompletedProcess;
  w_popen : nat -> string -> string -> string;
  w_node_info : nat -> Z -> rpc_result (option string);
  w_add_peer : nat -> Z -> string -> rpc_result bool;
  w_elapse : nat -> N
}.

(** The state threaded through a run: how many external actions happened,
    the clock (microseconds) and the files the program wrote. *)
Record State := mk_state {
  st_step : nat;
  st_clock : Z;
  st_fs : gmap string content
}.

Inductive exn : Type :=
  | RuntimeError (msg : string)
  | IndexError.

(** [Spin]: a loop was still running when the fuel ran out. *)
Inductive result (A : Type) : Type :=
  | Ret (a : A)
  | Raise (e : exn)
  | Spin.
Arguments Ret {A} a.
Arguments Raise {A} e.
Arguments Spin {A}.

Definition M (A : Type) : Type := State -> result A * State * list event.

Definition ret {A} (a : A) : M A := fun s => (Ret a, s, []).

Definition raise {A} (e : exn) : M A := fun s => (Raise e, s, []).

Definition spin {A} : M A := fun s => (Spin, s, []).

Definition bind {A B} (m : M A) (k : A -> M B) : M B :=
  fun s =>
    match m s with
    | (Ret a, s1, t1) =>
        match k a s1 with
        | (r, s2, t2) => (r, s2, t1 ++ t2)
        end
    | (Raise e, s1, t1) => (Raise e, s1, t1)
    | (Spin, s1, t1) => (Spin, s1, t1)
    end.

Declare Scope exec_scope.
Delimit Scope exec_scope with exec.
Notation "x <- m ;; k" := (bind m (fun x => k))
  (at level 100, m at next level, right associativity) : exec_scope.
Notation "m ;;; k" := (bind m (fun _ => k))
  (at level 100, right associativity) : exec_scope.

Definition MICROS : Z := 1000000.

(** [int(t)] for a clock reading [t]: whole seconds, truncated. *)
Definition int_seconds (t : Z) : Z := t ÷ MICROS.

Section Primitives.

Context (w : World).

(** The k-th external action happens: it takes [delay] microseconds and
    whatever the environment adds. *)
Definition tick (delay : Z) (s : State) : State :=
  {| st_step := S (st_step s);
     st_clock := st_clock s + delay + Z.of_N (w_elapse w (st_step s));
     st_fs := st_fs s |}.

Definition emit (e : event) : M unit := fun s => (Ret tt, s, [e]).

(** [print(...)] *)
Definition print (l : log) : M unit := emit (EvPrint l).

(** [os.makedirs(path, exist_ok=True)] *)
Definition makedirs (path : string) : M unit := emit (EvMakedirs path).

(** [with open(path, "w") as f: ...] *)
Definition write_file (path : string) (c : content) : M unit :=
  fun s =>
    (Ret tt,
     {| st_step := st_step s; st_clock := st_clock s;
        st_fs := <[path := c]> (st_fs s) |},
     [EvWrite path c]).

(** [time.time()] *)
Definition time_time : M Z :=
  fun s => let s' := tick 0 s in (Ret (st_clock s'), s', []).

(** [time.sleep(secs)] *)
Definition sleep (secs : Z) : M unit :=
  fun s => (Ret tt, tick (secs * MICROS) s, [EvSleep secs]).

(** [subprocess.run(cmd, shell=True, capture_output=True, text=True)] *)
Definition subprocess_run (cmd : string) : M CompletedProcess :=
  fun s =>
    let cp := w_run w (st_step s) cmd in
    (Ret cp, tick 0 s, [EvRun cmd cp]).

(** [Popen(cmd, shell=True, cwd=cwd, ...)] followed by [communicate()];
    the value is the collected standard output. *)
Definition popen_communicate (cmd cwd : string) : M string :=
  fun s =>
    let out := w_popen w (st_step s) cmd cwd in
    (Ret out, tick 0 s, [EvPopen cmd cwd out]).

(** One [node_info] call; an exception is a value here, the caller's
    [try] decides what to do with it. *)
Definition rpc_node_info (port : Z) : M (rpc_result (option string)) :=
  fun s =>
    let r := w_node_info w (st_step s) port in
    (Ret r, tick 0 s, [EvNodeInfo port r]).

Definition rpc_add_peer (port : Z) (enode : string) : M (rpc_result bool) :=
  fun s =>
    let r := w_add_peer w (st_step s) port enode in
    (Ret r, tick 0 s, [EvAddPeer port enode r]).

(** [for x in l: body(x)] *)
Fixpoint for_each {A} (l : list A) (body : A -> M unit) : M unit :=
  match l with
  | [] => ret tt
  | x :: r => bind (body x) (fun _ => for_each r body)
  end.

End Primitives.

(** Python truth value of an optional string. *)
Definition truthy (o : option string) : bool :=
  match o with
  | Some (String _ _) => true
  | _ => false
  end.

(** [l[i]] *)
Definition index {A} (l : list A) (i : Z) : M A :=
  let j := if i <? 0 then i + Z.of_nat (length l) else i in
  if j <? 0 then raise IndexError
  else match nth_error l (Z.to_nat j) with
       | Some x => ret x
       | None => raise IndexError
       end.

(** [enumerate(l, start)] *)
Fixpoint enumerate {A} (l : list A) (start : Z) : list (Z * A) :=
  match l with
  | [] => []
  | x :: r => (start, x) :: enumerate r (start + 1)
  end.

End Exec.

(* ===================================================================== *)
(** * The provisioning flow *)
(* ===================================================================== *)

Module Provision.

Import Exec.
Local Open Scope exec_scope.

(** Module-level configuration read from the process environment. *)
Record Config := mk_config {
  GETH_COMMAND : string;
  BASE_DIR : string;
  NETWORK_ID : Z
}.

(** Bound of the polling loop in [get_enode_via_rpc]. *)
Definition RETRY_CEILING : Z := 10.

Section Flow.

Context (cfg : Config) (w : World).

Definition NODES_DIR : string := PyStr.path_join (BASE_DIR cfg) "geth_nodes".
Definition OUT_DIR : string := PyStr.path_join (BASE_DIR cfg) "out".

(** [run(cmd)], with the defaults [cwd=None] and [wait=True] every caller
    uses. *)
Definition run (cmd : string) : M CompletedProcess :=
  print (Log_cmd cmd) ;;;
  subprocess_run w cmd.

Definition create_password_file (node_dir : string) : M string :=
  let pwfile := PyStr.path_join node_dir "pw.txt" in
  write_file pwfile (Text ("password" +:+ String (ascii_of_nat 10) "")) ;;;
  ret pwfile.

Definition account_cmd (node_dir pw : string) : string :=
  GETH_COMMAND cfg +:+ " --datadir " +:+ node_dir
    +:+ " account new --password " +:+ pw.

(** The loop over the output lines in [create_account]. *)
Fixpoint find_address (lines : list string) : option string :=
  match lines with
  | [] => None
  | line :: rest =>
      if PyStr.contains "Address" line then
        match PyStr.search_0x_hex line with
        | Some m => Some m
        | None => find_address rest
        end
      else find_address rest
  end.

Definition account_output (cp : CompletedProcess) : string :=
  PyStr.strip (stdout cp) +:+ PyStr.strip (stderr cp).

Definition account_error (out : string) : exn :=
  RuntimeError ("Could not create account: output=" +:+ out).

Definition create_account (node_dir : string) : M string :=
  pw <- create_password_file node_dir ;;
  let cmd := account_cmd node_dir pw in
  cp <- run cmd ;;
  let out := account_output cp in
  let addr := find_address (PyStr.splitlines out) in
  if truthy addr then
    match addr with
    | Some a => ret a
    | None => raise (account_error out)
    end
  else raise (account_error out).

Definition node_dir_of (i : Z) : string :=
  PyStr.path_join NODES_DIR ("node" +:+ PyStr.str i).

Fixpoint init_nodes_loop (idxs : list Z)
    (node_paths signer_addresses : list string)
    : M (list string * list string) :=
  match idxs with
  | [] => ret (node_paths, signer_addresses)
  | i :: rest =>
      let node_dir := node_dir_of i in
      let datadir := PyStr.path_join node_dir "data" in
      makedirs datadir ;;;
      let node_paths := node_paths ++ [node_dir] in
      addr <- create_account datadir ;;
      let signer_addresses := signer_addresses ++ [addr] in
      print (Log_created i addr) ;;;
      init_nodes_loop rest node_paths signer_addresses
  end.

Definition init_nodes (num_nodes chain_id : Z)
    : M (list string * list string) :=
  init_nodes_loop (PyStr.range 1 (num_nodes + 1)) [] [].

Definition write_genesis (genesis_obj : Genesis.genesis) (dest_path : string)
    : M unit :=
  write_file dest_path (JsonGenesis genesis_obj) ;;;
  print (Log_genesis_written dest_path).

Definition init_cmd (node_dir genesis_path : string) : string :=
  GETH_COMMAND cfg +:+ " --datadir " +:+ PyStr.path_join node_dir "data"
    +:+ " init " +:+ genesis_path.

Definition init_error (node_dir : string) : exn :=
  RuntimeError ("geth init failed for " +:+ node_dir).

Definition init_geth_datadir (node_dir genesis_path : string) : M unit :=
  let cmd := init_cmd node_dir genesis_path in
  cp <- run cmd ;;
  if negb (returncode cp =? 0) then
    print (Log_init_stderr (stderr cp)) ;;;
    raise (init_error node_dir)
  else ret tt.

Definition start_cmd (node_dir : string) (idx : Z) (unlock_addr : string)
    : string :=
  let datadir := PyStr.path_join node_dir "data" in
  let http_port := Ports.get_node_http_port idx in
  let p2p_port := Ports.get_node_p2p_port idx in
  let pwfile := PyStr.path_join datadir "pw.txt" in
  let logfile :=
    PyStr.path_join node_dir ("geth_" +:+ PyStr.str idx +:+ ".log") in
  GETH_COMMAND cfg +:+ " --datadir " +:+ datadir +:+ " "
    +:+ "--networkid " +:+ PyStr.str (NETWORK_ID cfg) +:+ " "
    +:+ "--http --http.addr 127.0.0.1 --http.port " +:+ PyStr.str http_port
    +:+ " --http.api eth,net,web3,personal,admin "
    +:+ "--port " +:+ PyStr.str p2p_port +:+ " "
    +:+ "--allow-insecure-unlock --unlock " +:+ unlock_addr
    +:+ " --password " +:+ pwfile +:+ " --mine --miner.threads=1 "
    +:+ "> " +:+ logfile +:+ " 2>&1 & echo $!".

Definition start_geth_node (node_dir : string) (idx : Z)
    (unlock_addr : string) : M string :=
  let logfile :=
    PyStr.path_join node_dir ("geth_" +:+ PyStr.str idx +:+ ".log") in
  let cmd := start_cmd node_dir idx unlock_addr in
  out <- popen_communicate w cmd node_dir ;;
  let pid := PyStr.strip out in
  print (Log_start idx pid logfile) ;;;
  ret pid.

Definition enode_error (http_port : Z) : exn :=
  RuntimeError
    ("Could not get enode from node at http port " +:+ PyStr.str http_port).

(** The [while attempts < 10] loop.  [attempts] grows, and the program
    sleeps, only in the [except] branch.  One unit of fuel is one pass
    through the loop body. *)
Fixpoint get_enode_loop (fuel : nat) (http_port attempts : Z) : M string :=
  if attempts <? RETRY_CEILING then
    match fuel with
    | O => spin
    | S fuel' =>
        r <- rpc_node_info w http_port ;;
        match r with
        | RpcReturn enode =>
            if truthy enode then
              match enode with
              | Some e => ret e
              | None => get_enode_loop fuel' http_port attempts
              end
            else get_enode_loop fuel' http_port attempts
        | RpcRaise =>
            let attempts := attempts + 1 in
            sleep w 1 ;;;
            get_enode_loop fuel' http_port attempts
        end
    end
  else raise (enode_error http_port).

Definition get_enode_via_rpc (fuel : nat) (http_port : Z) : M string :=
  get_enode_loop fuel http_port 0.

Definition add_peer_via_rpc (http_port : Z) (enode : string) : M bool :=
  r <- rpc_add_peer w http_port enode ;;
  match r with
  | RpcReturn b => ret b
  | RpcRaise => print Log_add_peer_error ;;; ret false
  end.

(** Step 4 of [provision_cluster]. *)
Fixpoint start_nodes_loop (l : list (Z * string)) (signer_addrs : list string)
    (pids : list string) : M (list string) :=
  match l with
  | [] => ret pids
  | (idx, node_dir) :: rest =>
      unlock_addr <- index signer_addrs (idx - 1) ;;
      pid <- start_geth_node node_dir idx unlock_addr ;;
      let pids := pids ++ [pid] in
      sleep w 2 ;;;
      start_nodes_loop rest signer_addrs pids
  end.

(** The value [provision_cluster] returns. *)
Record provision_result := mk_result {
  meta : cluster_meta;
  meta_path : string
}.

Definition genesis_file (t : Z) : string :=
  PyStr.path_join OUT_DIR
    ("genesis_" +:+ PyStr.str (int_seconds t) +:+ ".json").

Definition cluster_file (t : Z) : string :=
  PyStr.path_join OUT_DIR
    ("cluster_" +:+ PyStr.str (int_seconds t) +:+ ".json").

Definition provision_cluster (fuel : nat) (num_nodes chain_id : Z)
    : M provision_result :=
  (* Step 1 *)
  ps <- init_nodes num_nodes chain_id ;;
  let node_paths := fst ps in
  let signer_addrs := snd ps in
  print (Log_signers signer_addrs) ;;;
  (* Step 2 *)
  let genesis :=
    Genesis.build_clique_genesis chain_id signer_addrs
      Genesis.DEFAULT_GAS_LIMIT in
  t_genesis <- time_time w ;;
  let genesis_path := genesis_file t_genesis in
  write_genesis genesis genesis_path ;;;
  (* Step 3 *)
  for_each node_paths (fun node_dir =>
    init_geth_datadir node_dir genesis_path) ;;;
  (* Step 4 *)
  pids <- start_nodes_loop (enumerate node_paths 1) signer_addrs [] ;;
  (* Step 5 *)
  let boot_http_port := Ports.get_node_http_port 1 in
  enode <- get_enode_via_rpc fuel boot_http_port ;;
  print (Log_boot_enode enode) ;;;
  for_each (PyStr.range 2 (num_nodes + 1)) (fun idx =>
    let other_port := Ports.get_node_http_port idx in
    ok <- add_peer_via_rpc other_port enode ;;
    print (Log_add_peer idx ok)) ;;;
  (* Step 6 *)
  t_meta <- time_time w ;;
  let cluster_meta :=
    {| meta_timestamp := int_seconds t_meta;
       meta_num_nodes := num_nodes;
       meta_signers := signer_addrs;
       meta_genesis := genesis_path;
       meta_pids := pids |} in
  t_path <- time_time w ;;
  let meta_path := cluster_file t_path in
  write_file meta_path (JsonCluster cluster_meta) ;;;
  ret {| meta := cluster_meta; meta_path := meta_path |}.

(** [api_provision]: every exception becomes an error response. *)
Inductive response : Type :=
  | ResponseOk (r : provision_result)
  | ResponseError (detail : exn).

Definition api_provision (fuel : nat) (num_nodes chain_id : Z) : M response :=
  fun s =>
    match provision_cluster fuel num_nodes chain_id s with
    | (Ret r, s', t) => (Ret (ResponseOk r), s', t)
    | (Raise e, s', t) => (Ret (ResponseError e), s', t)
    | (Spin, s', t) => (Spin, s', t)
    end.

End Flow.

End Provision.

(* ===================================================================== *)
(** * Reading traces *)
(* ===================================================================== *)

Module Traces.

Import Exec Provision.

(** ** What a trace shows *)

(** A node process was launched. *)
Definition is_start (e : event) : bool :=
  match e with EvPopen _ _ _ => true | _ => false end.

(** A [node_info] call that raised. *)
Definition is_failed_node_info (e : event) : bool :=
  match e with EvNodeInfo _ RpcRaise => true | _ => false end.

(** A cluster record was written. *)
Definition is_cluster_write (e : event) : bool :=
  match e with EvWrite _ (JsonCluster _) => true | _ => false end.

(** A genesis descriptor was written. *)
Definition is_genesis_write (e : event) : bool :=
  match e with EvWrite _ (JsonGenesis _) => true | _ => false end.

(** A [node_info] answer that carries a usable address. *)
Definition is_usable_node_info (e : event) : bool :=
  match e with EvNodeInfo _ (RpcReturn o) => truthy o | _ => false end.

(** How many [node_info] calls raised. *)
Definition failed_polls (t : list event) : nat :=
  length (List.filter is_failed_node_info t).

(** The external commands that ran to completion, with their results. *)
Fixpoint run_results (t : list event) : list (string * CompletedProcess) :=
  match t with
  | [] => []
  | EvRun cmd cp :: r => (cmd, cp) :: run_results r
  | _ :: r => run_results r
  end.

(** The [add_peer] calls: port, address handed over, answer. *)
Fixpoint add_peer_calls (t : list event)
    : list (Z * string * rpc_result bool) :=
  match t with
  | [] => []
  | EvAddPeer port enode r :: rest => (port, enode, r) :: add_peer_calls rest
  | _ :: rest => add_peer_calls rest
  end.

(** The per-node peering outcomes the program prints. *)
Fixpoint add_peer_logs (t : list event) : list (Z * bool) :=
  match t with
  | [] => []
  | EvPrint (Log_add_peer idx ok) :: rest => (idx, ok) :: add_peer_logs rest
  | _ :: rest => add_peer_logs rest
  end.

(** What [add_peer_via_rpc] makes of an answer. *)
Definition peer_outcome (r : rpc_result bool) : bool :=
  match r with
  | RpcReturn b => b
  | RpcRaise => false
  end.

(** The address [create_account] reads in a tool report. *)
Definition parsed_address (cp : CompletedProcess) : option string :=
  find_address (PyStr.splitlines (account_output cp)).

(** Events that are neither an [add_peer] call nor a peering outcome line. *)
Definition before_peering (e : event) : Prop :=
  match e with
  | EvAddPeer _ _ _ | EvPrint (Log_add_peer _ _) => False
  | _ => True
  end.

(** ** The events of each step *)

Section Classes.

Context (cfg : Config).

Definition datadir_of (i : Z) : string :=
  PyStr.path_join (node_dir_of cfg i) "data".

Definition pwfile_of (i : Z) : string :=
  PyStr.path_join (datadir_of i) "pw.txt".

(** The credential files: the only files step 1 writes. *)
Definition is_pwfile (p : string) : Prop := exists i, p = pwfile_of i.

Definition account_event (e : event) : Prop :=
  match e with
  | EvMakedirs _ | EvWrite _ (Text _) => True
  | EvPrint (Log_cmd _) | EvPrint (Log_created _ _) => True
  | EvRun cmd _ => exists i, cmd = account_cmd cfg (datadir_of i) (pwfile_of i)
  | _ => False
  end.

Definition init_event (e : event) : Prop :=
  match e with
  | EvPrint (Log_cmd _) | EvPrint (Log_init_stderr _) | EvRun _ _ => True
  | _ => False
  end.

(** Events of an init step that went through. *)
Definition init_ok_event (e : event) : Prop :=
  match e with
  | EvPrint (Log_cmd _) => True
  | EvRun _ cp => returncode cp = 0
  | _ => False
  end.

Definition start_event (e : event) : Prop :=
  match e with
  | EvPopen _ _ _ | EvPrint (Log_start _ _ _) | EvSleep _ => True
  | _ => False
  end.

Definition discover_event (e : event) : Prop :=
  match e with
  | EvNodeInfo _ _ | EvSleep _ => True
  | _ => False
  end.

Definition peer_event (e : event) : Prop :=
  match e with
  | EvAddPeer _ _ _ | EvPrint Log_add_peer_error
  | EvPrint (Log_add_peer _ _) => True
  | _ => False
  end.

End Classes.

(** ** The shape of a whole run

    Where a run of [provision_cluster] can end, and what its trace and
    final state look like in each case. *)

Section Shape.

Context (cfg : Config) (N chain : Z) (s : State).

Definition node_paths : list string :=
  map (node_dir_of cfg) (PyStr.range 1 (N + 1)).

(** The events of step 2; [tgen] is the clock reading in the file name. *)
Definition genesis_events (addrs : list string) (tgen : Z) : list event :=
  [EvPrint (Log_signers addrs);
   EvWrite (genesis_file cfg tgen)
     (JsonGenesis
        (Genesis.build_clique_genesis chain addrs Genesis.DEFAULT_GAS_LIMIT));
   EvPrint (Log_genesis_written (genesis_file cfg tgen))].

Definition unusable (e : event) : Prop := is_usable_node_info e = false.

Inductive run_shape : result provision_result -> State -> list event -> Prop :=
  | Shape_account_failed ta out s' :
      Forall (account_event cfg) ta ->
      run_shape (Raise (account_error out)) s' ta
  | Shape_init_failed ta addrs tgen ti nd s' :
      Forall (account_event cfg) ta ->
      Forall init_event ti ->
      In nd node_paths ->
      run_shape (Raise (init_error nd)) s'
        (ta ++ genesis_events addrs tgen ++ ti)
  | Shape_discovery_failed ta addrs tgen ti ts td s' :
      Forall (account_event cfg) ta ->
      Forall init_ok_event ti ->
      Forall start_event ts ->
      Forall discover_event td ->
      Forall unusable td ->
      Z.of_nat (failed_polls td) = RETRY_CEILING ->
      run_shape (Raise (enode_error (Ports.get_node_http_port 1))) s'
        (ta ++ genesis_events addrs tgen ++ ti ++ ts ++ td)
  | Shape_discovery_spinning ta addrs tgen ti ts td s' :
      Forall (account_event cfg) ta ->
      Forall init_ok_event ti ->
      Forall start_event ts ->
      Forall discover_event td ->
      Forall unusable td ->
      Z.of_nat (failed_polls td) < RETRY_CEILING ->
      run_shape Spin s'
        (ta ++ genesis_events addrs tgen ++ ti ++ ts ++ td)
  | Shape_completed ta addrs tgen ti ts td enode tp pids tmeta tpath s' :
      let m := {| meta_timestamp := int_seconds tmeta;
                  meta_num_nodes := N;
                  meta_signers := addrs;
                  meta_genesis := genesis_file cfg tgen;
                  meta_pids := pids |} in
      Forall (account_event cfg) ta ->
      Forall init_ok_event ti ->
      Forall start_event ts ->
      Forall discover_event td ->
      Forall unusable td ->
      Z.of_nat (failed_polls td) < RETRY_CEILING ->
      enode <> "" ->
      Forall peer_event tp ->
      map fst (add_peer_calls tp)
      = map (fun idx => (Ports.get_node_http_port idx, enode))
            (PyStr.range 2 (N + 1)) ->
      add_peer_logs tp
      = combine (PyStr.range 2 (N + 1))
                (map (fun c => peer_outcome (snd c)) (add_peer_calls tp)) ->
      length addrs = Z.to_nat N ->
      length pids = Z.to_nat N ->
      st_clock s <= tgen ->
      tgen + 2 * MICROS * Z.of_nat (Z.to_nat N) <= tmeta ->
      tmeta <= tpath ->
      tpath <= st_clock s' ->
      st_fs s' !! genesis_file cfg tgen
      = Some (JsonGenesis
                (Genesis.build_clique_genesis chain addrs
                   Genesis.DEFAULT_GAS_LIMIT)) ->
      st_fs s' !! cluster_file cfg tpath = Some (JsonCluster m) ->
      (forall p, ~ is_pwfile cfg p -> p <> genesis_file cfg tgen ->
                 p <> cluster_file cfg tpath ->
                 st_fs s' !! p = st_fs s !! p) ->
      run_shape (Ret {| meta := m; meta_path := cluster_file cfg tpath |}) s'
        (ta ++ genesis_events addrs tgen ++ ti ++ ts
            ++ td ++ [EvNodeInfo (Ports.get_node_http_port 1)
                        (RpcReturn (Some enode));
                      EvPrint (Log_boot_enode enode)]
            ++ tp
            ++ [EvWrite (cluster_file cfg tpath) (JsonCluster m)]).

End Shape.

End Traces.

(* ===================================================================== *)
(** * Concrete environments *)
(* ===================================================================== *)

Module Scenarios.

Import Exec Provision.

Definition cfg0 : Config :=
  {| GETH_COMMAND := "geth"; BASE_DIR := "/srv/provisioner";
     NETWORK_ID := 1515 |}.

Definition newline : string := String (ascii_of_nat 10) "".

Definition ADDR_A : string := "0x52D9a6f1C0b3E4a7F8d2C1b09e8A7f6D5c4B3a21".
Definition ADDR_B : string := "0x0fE1d2C3b4A5968778695a4B3c2D1e0F9a8b7C6d".
Definition ENODE : string := "enode://6f8a80d14311c39f@127.0.0.1:30303".

(** What [geth account new] prints for a new key. *)
Definition account_report (addr : string) : CompletedProcess :=
  {| returncode := 0;
     stdout := "Your new key was generated" +:+ newline
               +:+ "Address: {" +:+ addr +:+ "}" +:+ newline;
     stderr := "" |}.

Definition quiet (rc : Z) : CompletedProcess :=
  {| returncode := rc; stdout := "";
     stderr := if rc =? 0 then "" else "Fatal: invalid genesis file" |}.

(** The node binary: [addr_of] picks the address an account command
    reports, [init_rc] the exit status of an init command. *)
Definition tool (addr_of : string -> string) (init_rc : string -> Z)
    (k : nat) (cmd : string) : CompletedProcess :=
  if PyStr.contains " account new " cmd then account_report (addr_of cmd)
  else quiet (init_rc cmd).

Definition fresh_addresses (cmd : string) : string :=
  if PyStr.contains "/node1/" cmd then ADDR_A else ADDR_B.

Definition world (addr_of : string -> string) (init_rc : string -> Z)
    (node_info : nat -> rpc_result (option string))
    (add_peer : Z -> rpc_result bool) (elapse : N) : World :=
  {| w_run := tool addr_of init_rc;
     w_popen := fun k _ _ => PyStr.str (4000 + Z.of_nat k) +:+ newline;
     w_node_info := fun k _ => node_info k;
     w_add_peer := fun _ port _ => add_peer port;
     w_elapse := fun _ => elapse |}.



(** Init fails for node 2. *)
Definition w_init_fails : World :=
  world fresh_addresses
        (fun cmd => if PyStr.contains "/node2/" cmd then 1 else 0)
        (fun _ => RpcReturn (Some ENODE)) (fun _ => RpcReturn true) 1500.

(** The bootstrap node never answers. *)
Definition w_unreachable : World :=
  world fresh_addresses (fun _ => 0) (fun _ => RpcRaise)
        (fun _ => RpcReturn true) 1500.

(** The bootstrap node answers, but without an "enode" entry. *)
Definition w_empty_info : World :=
  world fresh_addresses (fun _ => 0) (fun _ => RpcReturn None)
        (fun _ => RpcReturn true) 1500.

(** Node 2 raises on [add_peer], node 3 answers [False]. *)
Definition w_peer_refuses : World :=
  world fresh_addresses (fun _ => 0) (fun _ => RpcReturn (Some ENODE))
        (fun port => if port =? 8546 then RpcRaise else RpcReturn false)
        1500.


Definition s0 : State :=
  {| st_step := 0; st_clock := 1700000000 * MICROS + 250000; st_fs := ∅ |}.

(** The 20 bytes of [ADDR_A] and of [ADDR_B]. *)
Definition BYTES_A : list Z :=
  [82; 217; 166; 241; 192; 179; 228; 167; 248; 210;
   193; 176; 158; 138; 127; 109; 92; 75; 58; 33].

Definition BYTES_B : list Z :=
  [15; 225; 210; 195; 180; 165; 150; 135; 120; 105;
   90; 75; 60; 45; 30; 15; 154; 139; 124; 109].

End Scenarios.

(* ===================================================================== *)
(** * More views of a trace *)
(* ===================================================================== *)

Module Views.

Import Exec Provision Traces.

(** The directories created, in order. *)
Fixpoint made_dirs (t : list event) : list string :=
  match t with
  | [] => []
  | EvMakedirs p :: r => p :: made_dirs r
  | _ :: r => made_dirs r
  end.

(** The processes launched in the background: command line, working
    directory and what they printed. *)
Fixpoint launches (t : list event) : list (string * string * string) :=
  match t with
  | [] => []
  | EvPopen cmd cwd out :: r => (cmd, cwd, out) :: launches r
  | _ :: r => launches r
  end.

(** The [node_info] polls: port and answer. *)
Fixpoint polls (t : list event) : list (Z * rpc_result (option string)) :=
  match t with
  | [] => []
  | EvNodeInfo port r :: rest => (port, r) :: polls rest
  | _ :: rest => polls rest
  end.

(** The seconds asked of [time.sleep], added up. *)
Fixpoint slept (t : list event) : Z :=
  match t with
  | [] => 0
  | EvSleep secs :: r => secs + slept r
  | _ :: r => slept r
  end.

(** The files as they are after the writes of [t], in order, on [fs]. *)
Fixpoint replay (t : list event) (fs : gmap string content)
    : gmap string content :=
  match t with
  | [] => fs
  | EvWrite p c :: r => replay r (<[p := c]> fs)
  | _ :: r => replay r fs
  end.

(** The content of every credential file. *)
Definition PASSWORD : content :=
  Text ("password" +:+ String (ascii_of_nat 10) "").

(** The steps of [provision_cluster] as they show in a trace: 1 for the
    write of the genesis descriptor, 2 for a node launch, 3 for a poll of
    the bootstrap node, 4 for an [add_peer] call, 5 for the write of the
    cluster record.  Other events carry no step mark. *)
Definition step_mark (e : event) : option nat :=
  match e with
  | EvWrite _ (JsonGenesis _) => Some 1%nat
  | EvPopen _ _ _ => Some 2%nat
  | EvNodeInfo _ _ => Some 3%nat
  | EvAddPeer _ _ _ => Some 4%nat
  | EvWrite _ (JsonCluster _) => Some 5%nat
  | _ => None
  end.

Fixpoint step_marks (t : list event) : list nat :=
  match t with
  | [] => []
  | e :: r =>
      match step_mark e with
      | Some n => n :: step_marks r
      | None => step_marks r
      end
  end.

(** The marks [l] are in order and lie between [lo] and [hi]. *)
Definition in_band (lo hi : nat) (l : list nat) : Prop :=
  StronglySorted le l /\ Forall (fun x => (lo <= x <= hi)%nat) l.

(** Reading the authority list back from the bytes of [extraData], the
    way a joining node does: drop the 32 bytes of vanity and the 65 bytes
    of signature, cut what is left into addresses of 20 bytes. *)
Fixpoint chunks (size count : nat) (l : list Z) : list (list Z) :=
  match count with
  | O => []
  | S k => firstn size l :: chunks size k (skipn size l)
  end.

Definition signers_of_bytes (bytes : list Z) : list (list Z) :=
  chunks 20 ((length bytes - 32 - 65) / 20) (skipn 32 bytes).

(** Reading a "0x" hexadecimal number back. *)
Definition int_of_0x (s : string) : option Z :=
  match s with
  | String "0" (String "x" h) =>
      match HexadecimalString.NilEmpty.uint_of_string h with
      | Some d => Some (Z.of_hex_uint d)
      | None => None
      end
  | _ => None
  end.

Section Commands.

Context (cfg : Config).

(** The account command of node [i]. *)
Definition account_cmd_of (i : Z) : string :=
  account_cmd cfg (datadir_of cfg i) (pwfile_of cfg i).

(** The log file of node [i]. *)
Definition logfile_of (i : Z) : string :=
  PyStr.path_join (node_dir_of cfg i)
    ("geth_" +:+ PyStr.str i +:+ ".log").

End Commands.

(** ** The steps behind a run

    A run of [provision_cluster] is the run of its steps one after the
    other, up to the first one that does not return. *)

(** The outcome of a step that did not return, as the outcome of the
    whole. *)
Definition fail_as {A B} (r : result A) : result B :=
  match r with
  | Ret _ => Spin
  | Raise e => Raise e
  | Spin => Spin
  end.

Definition returned {A} (r : result A) : bool :=
  match r with Ret _ => true | _ => false end.

Section Steps.

Context (cfg : Config) (w : World) (fuel : nat) (N chain : Z) (s : State).

(** The state after step 2, which starts in [sa] with the addresses
    [addrs]. *)
Definition after_genesis (addrs : list string) (sa : State) : State :=
  {| st_step := S (st_step sa);
     st_clock := st_clock (tick w 0 sa);
     st_fs :=
       <[genesis_file cfg (st_clock (tick w 0 sa)) :=
           JsonGenesis
             (Genesis.build_clique_genesis chain addrs
                Genesis.DEFAULT_GAS_LIMIT)]> (st_fs sa) |}.

(** The body of the peering loop. *)
Definition peer_body (enode : string) (idx : Z) : M unit :=
  bind (add_peer_via_rpc w (Ports.get_node_http_port idx) enode)
       (fun ok => print (Log_add_peer idx ok)).

Inductive run_steps
    : result provision_result -> State -> list event -> Prop :=
  | Steps_accounts ra sa ta :
      init_nodes cfg w N chain s = (ra, sa, ta) ->
      returned ra = false ->
      run_steps (fail_as ra) sa ta
  | Steps_init paths addrs sa ta ri si ti :
      let tgen := st_clock (tick w 0 sa) in
      init_nodes cfg w N chain s = (Ret (paths, addrs), sa, ta) ->
      for_each paths
        (fun nd => init_geth_datadir cfg w nd (genesis_file cfg tgen))
        (after_genesis addrs sa) = (ri, si, ti) ->
      returned ri = false ->
      run_steps (fail_as ri) si (ta ++ genesis_events cfg chain addrs tgen ++ ti)
  | Steps_start paths addrs sa ta u si ti rs ss ts :
      let tgen := st_clock (tick w 0 sa) in
      init_nodes cfg w N chain s = (Ret (paths, addrs), sa, ta) ->
      for_each paths
        (fun nd => init_geth_datadir cfg w nd (genesis_file cfg tgen))
        (after_genesis addrs sa) = (Ret u, si, ti) ->
      start_nodes_loop cfg w (enumerate paths 1) addrs [] si = (rs, ss, ts) ->
      returned rs = false ->
      run_steps (fail_as rs) ss
        (ta ++ genesis_events cfg chain addrs tgen ++ ti ++ ts)
  | Steps_discover paths addrs sa ta u si ti pids ss ts rd sd td :
      let tgen := st_clock (tick w 0 sa) in
      init_nodes cfg w N chain s = (Ret (paths, addrs), sa, ta) ->
      for_each paths
        (fun nd => init_geth_datadir cfg w nd (genesis_file cfg tgen))
        (after_genesis addrs sa) = (Ret u, si, ti) ->
      start_nodes_loop cfg w (enumerate paths 1) addrs [] si
      = (Ret pids, ss, ts) ->
      get_enode_via_rpc w fuel (Ports.get_node_http_port 1) ss
      = (rd, sd, td) ->
      returned rd = false ->
      run_steps (fail_as rd) sd
        (ta ++ genesis_events cfg chain addrs tgen ++ ti ++ ts ++ td)
  | Steps_done paths addrs sa ta u si ti pids ss ts enode sd td u' sp tp :
      let tgen := st_clock (tick w 0 sa) in
      let tmeta := st_clock (tick w 0 sp) in
      let tpath := st_clock (tick w 0 (tick w 0 sp)) in
      let m := {| meta_timestamp := int_seconds tmeta;
                  meta_num_nodes := N;
                  meta_signers := addrs;
                  meta_genesis := genesis_file cfg tgen;
                  meta_pids := pids |} in
      init_nodes cfg w N chain s = (Ret (paths, addrs), sa, ta) ->
      for_each paths
        (fun nd => init_geth_datadir cfg w nd (genesis_file cfg tgen))
        (after_genesis addrs sa) = (Ret u, si, ti) ->
      start_nodes_loop cfg w (enumerate paths 1) addrs [] si
      = (Ret pids, ss, ts) ->
      get_enode_via_rpc w fuel (Ports.get_node_http_port 1) ss
      = (Ret enode, sd, td) ->
      for_each (PyStr.range 2 (N + 1)) (peer_body enode) sd
      = (Ret u', sp, tp) ->
      run_steps
        (Ret {| meta := m; meta_path := cluster_file cfg tpath |})
        {| st_step := S (S (st_step sp));
           st_clock := tpath;
           st_fs := <[cluster_file cfg tpath := JsonCluster m]> (st_fs sp) |}
        (ta ++ genesis_events cfg chain addrs tgen ++ ti ++ ts ++ td
            ++ [EvPrint (Log_boot_enode enode)] ++ tp
            ++ [EvWrite (cluster_file cfg tpath) (JsonCluster m)]).

End Steps.

End Views.

(** The definitions end here; what follows are the facts about them. *)

(* ===================================================================== *)
(** * Facts about the string and integer primitives *)
(* ===================================================================== *)

Module PyStrFacts.
Import PyStr.

Ltac by_cases_on_char c :=
  destruct c as [[] [] [] [] [] [] [] []]; vm_compute; try reflexivity; try discriminate; auto.

Lemma lower_char_idem c : lower_char (lower_char c) = lower_char c.
Proof. by_cases_on_char c. Qed.

Lemma lower_idem s : lower (lower s) = lower s.
Proof.
  induction s as [|c r IH]; simpl; [reflexivity|].
  now rewrite lower_char_idem, IH.
Qed.

Lemma append_cons c (a b : string) : String c a +:+ b = String c (a +:+ b).
Proof. reflexivity. Qed.

Lemma append_nil_l (b : string) : "" +:+ b = b.
Proof. reflexivity. Qed.

Lemma append_assoc (a b c : string) : (a +:+ b) +:+ c = a +:+ (b +:+ c).
Proof.
  induction a as [|x a IH]; [reflexivity|].
  now rewrite !append_cons, IH.
Qed.


Lemma length_append (a b : string) :
  String.length (a +:+ b) = (String.length a + String.length b)%nat.
Proof.
  induction a as [|x a IH]; [reflexivity|].
  rewrite append_cons. simpl. now rewrite IH.
Qed.

Lemma append_inv_head (p a b : string) : p +:+ a = p +:+ b -> a = b.
Proof.
  induction p as [|x p IH]; intros H; [exact H|].
  rewrite !append_cons in H. injection H as H. auto.
Qed.

Lemma In_range lo hi i : In i (range lo hi) <-> lo <= i < hi.
Proof.
  unfold range. rewrite in_map_iff. split.
  - intros (k & <- & Hk). apply in_seq in Hk. lia.
  - intros H. exists (Z.to_nat (i - lo)). split; [lia|].
    apply in_seq. lia.
Qed.

Lemma length_range lo hi : length (range lo hi) = Z.to_nat (hi - lo).
Proof. unfold range. now rewrite length_map, length_seq. Qed.

Lemma NoDup_range lo hi : List.NoDup (range lo hi).
Proof.
  unfold range. apply Finite.Injective_map_NoDup.
  - intros a b H. lia.
  - apply seq_NoDup.
Qed.



End PyStrFacts.

(* ===================================================================== *)
(** * The genesis builder *)
(* ===================================================================== *)

Module GenesisFacts.
Import PyStr PyStrFacts Genesis.

Lemma hex_val_lower_char c : hex_val (lower_char c) = hex_val c.
Proof. by_cases_on_char c. Qed.

Lemma hex_val_not_x c v : hex_val c = Some v -> lower_char c <> "x"%char.
Proof. by_cases_on_char c. Qed.

Lemma prefix_cons a s1 b s2 :
  String.prefix (String a s1) (String b s2)
  = if ascii_dec a b then String.prefix s1 s2 else false.
Proof. reflexivity. Qed.

Lemma prefix_nil s : String.prefix "" s = true.
Proof. now destruct s. Qed.

Lemma replace_from_matched t :
  replace_from "0x" "" (String "0" (String "x" t)) 0 = replace_from "0x" "" t 0.
Proof.
  cbn [replace_from]. rewrite !prefix_cons, prefix_nil.
  destruct (ascii_dec "0" "0"); [|congruence].
  destruct (ascii_dec "x" "x"); [|congruence].
  reflexivity.
Qed.

Lemma replace_from_no_x s : no_x s -> replace_from "0x" "" s 0 = s.
Proof.
  induction s as [|c r IH]; intros H; [reflexivity|].
  destruct H as [Hc Hr]. cbn [replace_from].
  assert (Hp : String.prefix "0x" (String c r) = false).
  { rewrite prefix_cons. destruct (ascii_dec "0" c); [|reflexivity].
    destruct r as [|c' r']; [reflexivity|].
    destruct Hr as [Hc' _]. rewrite prefix_cons.
    destruct (ascii_dec "x" c'); [congruence | reflexivity]. }
  rewrite Hp. now rewrite IH.
Qed.

Lemma hex_decode_cons2 h l r :
  hex_decode (String h (String l r)) =
  match hex_val h, hex_val l, hex_decode r with
  | Some a, Some b, Some bs => Some (16 * a + b :: bs)
  | _, _, _ => None
  end.
Proof. reflexivity. Qed.

(** Induction on strings two characters at a time. *)
Lemma string_pair_ind (P : string -> Prop) :
  P "" -> (forall c, P (String c "")) ->
  (forall h l r, P r -> P (String h (String l r))) ->
  forall s, P s.
Proof.
  intros H0 H1 H2.
  assert (H : forall s, P s /\ forall c, P (String c s)).
  { induction s as [|c s [IHs IHc]]; split; auto. }
  intros s. apply H.
Qed.

Lemma hex_decode_lower s : hex_decode (lower s) = hex_decode s.
Proof.
  induction s as [| c | h l r IH] using string_pair_ind; try reflexivity.
  cbn [lower]. rewrite !hex_decode_cons2, !hex_val_lower_char, IH.
  reflexivity.
Qed.

Lemma hex_decode_no_x s bs : hex_decode s = Some bs -> no_x (lower s).
Proof.
  revert bs.
  induction s as [| c | h l r IH] using string_pair_ind; intros bs H.
  - exact I.
  - discriminate.
  - rewrite hex_decode_cons2 in H.
    destruct (hex_val h) as [a|] eqn:Ha; [|discriminate].
    destruct (hex_val l) as [b|] eqn:Hb; [|discriminate].
    destruct (hex_decode r) as [bs'|] eqn:Hr; [|discriminate].
    cbn [lower no_x]. repeat split; eauto using hex_val_not_x.
Qed.

Lemma hex_decode_app a b x y :
  hex_decode a = Some x -> hex_decode b = Some y ->
  hex_decode (a +:+ b) = Some (x ++ y).
Proof.
  revert x.
  induction a as [| c | h l r IH] using string_pair_ind; intros x Ha Hb.
  - injection Ha as <-. exact Hb.
  - discriminate.
  - rewrite hex_decode_cons2 in Ha.
    destruct (hex_val h) as [u|] eqn:Hu; [|discriminate].
    destruct (hex_val l) as [v|] eqn:Hv; [|discriminate].
    destruct (hex_decode r) as [bs'|] eqn:Hr; [|discriminate].
    injection Ha as <-.
    rewrite !append_cons, hex_decode_cons2, Hu, Hv, (IH bs' eq_refl Hb).
    reflexivity.
Qed.

Lemma hex_decode_zeros n : hex_decode (repeat_str "00" n) = Some (repeat 0 n).
Proof.
  induction n as [|n IH]; [reflexivity|].
  cbn [repeat_str repeat].
  change ("00" +:+ repeat_str "00" n) with (String "0" (String "0" (repeat_str "00" n))).
  rewrite hex_decode_cons2, IH. reflexivity.
Qed.

Lemma bytes_of_0x_inv s bs :
  bytes_of_0x s = Some bs ->
  exists h, s = String "0" (String "x" h) /\ hex_decode h = Some bs.
Proof.
  intros H. destruct s as [|c0 s]; [discriminate|].
  destruct c0 as [[] [] [] [] [] [] [] []]; try discriminate H.
  destruct s as [|c1 h]; [discriminate|].
  destruct c1 as [[] [] [] [] [] [] [] []]; try discriminate H.
  exists h. split; [reflexivity | exact H].
Qed.

(** What [build_clique_genesis] does to one well-formed address. *)
Lemma strip_prefix_address addr bs :
  address_bytes addr = Some bs ->
  hex_decode (replace "0x" "" (lower addr)) = Some bs /\ length bs = 20%nat.
Proof.
  unfold address_bytes. intros H.
  destruct (bytes_of_0x addr) as [bs'|] eqn:Hb; [|discriminate].
  destruct (length bs' =? 20)%nat eqn:Hlen; [|discriminate].
  injection H as <-. apply Nat.eqb_eq in Hlen. split; [|exact Hlen].
  apply bytes_of_0x_inv in Hb as (h & -> & Hh).
  change (lower (String "0" (String "x" h)))
    with (String "0" (String "x" (lower h))).
  unfold replace.
  rewrite replace_from_matched, replace_from_no_x
    by eauto using hex_decode_no_x.
  now rewrite hex_decode_lower.
Qed.

Lemma hex_decode_signers addrs bss :
  Forall2 (fun a bs => address_bytes a = Some bs) addrs bss ->
  hex_decode (join_empty (map (fun addr => replace "0x" "" (lower addr)) addrs))
  = Some (concat bss)
  /\ length (concat bss) = (20 * length addrs)%nat.
Proof.
  induction 1 as [|a bs addrs bss Ha _ [IH1 IH2]]; [split; reflexivity|].
  apply strip_prefix_address in Ha as [Ha Hlen].
  cbn [map join_empty concat]. split.
  - now apply hex_decode_app.
  - rewrite length_app, Hlen, IH2. cbn [length]. lia.
Qed.

(** C1. For any chain identifier, gas ceiling and list of well-formed
    authority addresses ("0x" and 40 hexadecimal digits, 20 bytes each),
    the extraData of the genesis descriptor is a "0x"-prefixed hex string
    whose bytes are 32 zero bytes, then the bytes of the addresses in the
    order supplied, then 65 zero bytes: 32 + 20*N + 65 bytes in all. *)
Theorem extraData_layout chain gas (addrs : list string) (bss : list (list Z)) :
  Forall2 (fun a bs => address_bytes a = Some bs) addrs bss ->
  exists bytes,
    bytes_of_0x (extraData (build_clique_genesis chain addrs gas)) = Some bytes
    /\ bytes = repeat 0 32 ++ concat bss ++ repeat 0 65
    /\ length bytes = (32 + 20 * length addrs + 65)%nat.
Proof.
  intros H. apply hex_decode_signers in H as [Hdec Hlen].
  eexists. split; [|split; [reflexivity|]].
  - cbn [build_clique_genesis extraData].
    change ("0x" +:+ ?s) with (String "0" (String "x" s)).
    cbn [bytes_of_0x].
    apply hex_decode_app; [apply hex_decode_zeros|].
    apply hex_decode_app; [exact Hdec | apply hex_decode_zeros].
  - rewrite !length_app, !repeat_length, Hlen. lia.
Qed.

(** C9. [build_clique_genesis] gives the same descriptor for a list of
    addresses and for its lower-cased form. *)
Theorem genesis_case_insensitive chain gas (addrs : list string) :
  build_clique_genesis chain (map lower addrs) gas
  = build_clique_genesis chain addrs gas.
Proof.
  unfold build_clique_genesis. rewrite map_map.
  do 4 f_equal. f_equal. apply map_ext. intros a. now rewrite lower_idem.
Qed.

End GenesisFacts.

(* ===================================================================== *)
(** * Port assignment *)
(* ===================================================================== *)

Module PortsFacts.
Import PyStr PyStrFacts Ports.

Lemma http_port_inj : Inj (=) (=) get_node_http_port.
Proof. intros i j. unfold get_node_http_port. lia. Qed.

Lemma p2p_port_inj : Inj (=) (=) get_node_p2p_port.
Proof. intros i j. unfold get_node_p2p_port. lia. Qed.

Lemma NoDup_ports (f : Z -> Z) lo hi :
  Inj (=) (=) f -> NoDup (map f (range lo hi)).
Proof.
  intros Hf. apply NoDup_ListNoDup.
  apply Finite.Injective_map_NoDup; [exact Hf | apply NoDup_range].
Qed.

Lemma size_ports (f : Z -> Z) (N : Z) :
  Inj (=) (=) f ->
  size (list_to_set (map f (range 1 (N + 1))) : gset Z) = Z.to_nat N.
Proof.
  intros Hf. rewrite size_list_to_set by (apply NoDup_ports; exact Hf).
  rewrite length_map, length_range. f_equal. lia.
Qed.

(** C7. Node [i] listens on [P2P_BASE + (i-1)] and serves RPC on
    [HTTP_BASE + (i-1)]; both assignments are injective, so the nodes
    1..N occupy exactly N network ports and exactly N RPC ports. *)
Theorem port_assignment (N : Z) :
  let nodes := range 1 (N + 1) in
  Forall (fun i => get_node_p2p_port i = P2P_BASE + (i - 1)
                   /\ get_node_http_port i = HTTP_BASE + (i - 1)) nodes
  /\ Inj (=) (=) get_node_p2p_port
  /\ Inj (=) (=) get_node_http_port
  /\ NoDup (map get_node_p2p_port nodes)
  /\ NoDup (map get_node_http_port nodes)
  /\ size (list_to_set (map get_node_p2p_port nodes) : gset Z) = Z.to_nat N
  /\ size (list_to_set (map get_node_http_port nodes) : gset Z) = Z.to_nat N.
Proof.
  cbv zeta. repeat split.
  - apply Forall_forall. intros i _. split; reflexivity.
  - apply p2p_port_inj.
  - apply http_port_inj.
  - apply NoDup_ports, p2p_port_inj.
  - apply NoDup_ports, http_port_inj.
  - apply size_ports, p2p_port_inj.
  - apply size_ports, http_port_inj.
Qed.

End PortsFacts.

(* ===================================================================== *)
(** * The effect monad *)
(* ===================================================================== *)

Module ExecFacts.
Import Exec.

Lemma bind_run {A B} (m : M A) (k : A -> M B) s r s' t :
  bind m k s = (r, s', t) ->
  match m s with
  | (Ret a, s1, t1) => exists t2, k a s1 = (r, s', t2) /\ t = t1 ++ t2
  | (Raise e, s1, t1) => r = Raise e /\ s' = s1 /\ t = t1
  | (Spin, s1, t1) => r = Spin /\ s' = s1 /\ t = t1
  end.
Proof.
  unfold bind. destruct (m s) as [[[a|e|] s1] t1].
  - destruct (k a s1) as [[r2 s2] t2]. intros [= <- <- <-]. eauto.
  - intros [= <- <- <-]. auto.
  - intros [= <- <- <-]. auto.
Qed.

(** Split a run of [bind m k]: name the run of [m], then either continue
    with the run of [k] or stop with the exception. *)
Ltac run_bind H :=
  let r := fresh "r" in
  let s := fresh "s" in
  let t := fresh "t" in
  let E := fresh "E" in
  let a := fresh "a" in
  let e := fresh "e" in
  let t2 := fresh "t" in
  apply bind_run in H;
  match type of H with
  | match ?ms with _ => _ end =>
      destruct ms as [[r s] t] eqn:E;
      destruct r as [a|e|];
      [ destruct H as (t2 & H & ->)
      | destruct H as (-> & -> & ->)
      | destruct H as (-> & -> & ->) ]
  end.

(** The monad laws, state by state. *)

Lemma bind_ret_l {A B} (a : A) (k : A -> M B) s : bind (ret a) k s = k a s.
Proof. unfold bind, ret. now destruct (k a s) as [[r s'] t]. Qed.

Lemma bind_ret_r {A} (m : M A) s : bind m ret s = m s.
Proof.
  unfold bind, ret. destruct (m s) as [[[a|e|] s'] t]; try reflexivity.
  now rewrite app_nil_r.
Qed.

Lemma bind_assoc {A B C} (m : M A) (f : A -> M B) (g : B -> M C) s :
  bind (bind m f) g s = bind m (fun x => bind (f x) g) s.
Proof.
  unfold bind. destruct (m s) as [[[a|e|] s1] t1]; try reflexivity.
  destruct (f a s1) as [[[b|e|] s2] t2]; try reflexivity.
  destruct (g b s2) as [[r s3] t3]. now rewrite app_assoc.
Qed.

(** An exception ends the run where it is raised: nothing after it
    happens. *)
Lemma bind_raise {A B} (e : exn) (k : A -> M B) s :
  bind (raise e) k s = (Raise e, s, []).
Proof. reflexivity. Qed.

End ExecFacts.

(* ===================================================================== *)
(** * Paths and decimal renderings *)
(* ===================================================================== *)

Module PathFacts.
Import PyStr PyStrFacts.

Lemma append_inv_tail (a b s : string) : a +:+ s = b +:+ s -> a = b.
Proof.
  revert b. induction a as [|x a IH]; intros [|y b] H.
  - reflexivity.
  - apply (f_equal String.length) in H.
    rewrite append_cons, append_nil_l in H. cbn [String.length] in H.
    rewrite length_append in H. lia.
  - apply (f_equal String.length) in H.
    rewrite append_cons, append_nil_l in H. cbn [String.length] in H.
    rewrite length_append in H. lia.
  - rewrite !append_cons in H. injection H as -> H. f_equal. auto.
Qed.

Lemma str_inj a b : str a = str b -> a = b.
Proof.
  unfold str. intros H. apply DecimalZ.to_int_inj.
  apply (f_equal DecimalString.NilEmpty.int_of_string) in H.
  rewrite !DecimalString.NilEmpty.isi in H. now injection H.
Qed.

Lemma uint_not_slash d :
  forall_chars not_slash (DecimalString.NilEmpty.string_of_uint d) = true.
Proof. induction d; cbn; auto. Qed.

Lemma str_not_slash n : forall_chars not_slash (str n) = true.
Proof.
  unfold str. destruct (Z.to_int n) as [d|d]; cbn.
  - apply uint_not_slash.
  - apply uint_not_slash.
Qed.

(** Two strings cut at their first slash. *)
Lemma split_at_slash a b x y :
  forall_chars not_slash a = true -> forall_chars not_slash b = true ->
  a +:+ String "/" x = b +:+ String "/" y -> a = b /\ x = y.
Proof.
  revert b. induction a as [|c a IH]; intros [|d b] Ha Hb H.
  - rewrite !append_nil_l in H. injection H as ->. auto.
  - rewrite append_nil_l, append_cons in H. injection H as <- _.
    cbn in Hb. discriminate.
  - rewrite append_nil_l, append_cons in H. injection H as -> _.
    cbn in Ha. discriminate.
  - rewrite !append_cons in H. injection H as -> H.
    cbn in Ha, Hb. apply andb_prop in Ha as [_ Ha], Hb as [_ Hb].
    destruct (IH b Ha Hb H) as [-> ->]. auto.
Qed.

Lemma ends_with_slash_cons c s :
  ends_with_slash (String c s)
  = match s with
    | EmptyString => Ascii.eqb c "/"
    | String _ _ => ends_with_slash s
    end.
Proof.
  unfold ends_with_slash. destruct s as [|d s]; [reflexivity|].
  cbn [list_ascii_of_string]. change (rev (c :: ?l)) with (rev l ++ [c]).
  destruct (rev (d :: list_ascii_of_string s)) as [|e l] eqn:E; [|reflexivity].
  apply (f_equal (@length _)) in E. rewrite length_rev in E. discriminate.
Qed.

Lemma ends_with_slash_no_slash b :
  forall_chars not_slash b = true -> ends_with_slash b = false.
Proof.
  induction b as [|c b IH]; intros H; [reflexivity|].
  cbn in H. apply andb_prop in H as [Hc Hb].
  rewrite ends_with_slash_cons. destruct b; [|auto].
  unfold not_slash in Hc. now destruct (Ascii.eqb c "/").
Qed.

Lemma ends_with_slash_app a b :
  ends_with_slash a = false -> forall_chars not_slash b = true ->
  ends_with_slash (a +:+ b) = false.
Proof.
  intros Ha Hb. induction a as [|c a IH].
  - rewrite append_nil_l. now apply ends_with_slash_no_slash.
  - rewrite append_cons, ends_with_slash_cons.
    rewrite ends_with_slash_cons in Ha.
    destruct a as [|d a].
    + rewrite append_nil_l. destruct b; [exact Ha|].
      now apply ends_with_slash_no_slash.
    + rewrite append_cons. rewrite append_cons in IH. auto.
Qed.

Lemma path_join_relative a b :
  String.prefix "/" b = false -> path_join a b = dir_prefix a +:+ b.
Proof.
  intros H. unfold path_join, dir_prefix. rewrite H.
  destruct (_ || _); [reflexivity|]. now rewrite append_assoc.
Qed.

Lemma path_join_plain a b :
  String.prefix "/" b = false -> a <> "" -> ends_with_slash a = false ->
  path_join a b = a +:+ "/" +:+ b.
Proof.
  intros H Ha He. unfold path_join. rewrite H, He.
  destruct a; [congruence | reflexivity].
Qed.

Lemma append_not_nil a b : b <> "" -> a +:+ b <> "".
Proof.
  intros Hb H. apply (f_equal String.length) in H.
  rewrite length_append in H. destruct b; [congruence|]. cbn in H. lia.
Qed.

End PathFacts.

(* ===================================================================== *)
(** * Directory layout and command lines *)
(* ===================================================================== *)

Module LayoutFacts.
Import PyStr PyStrFacts PathFacts Exec Provision Traces.

Lemma ends_with_slash_app_r a c b :
  ends_with_slash (a +:+ String c b) = ends_with_slash (String c b).
Proof.
  induction a as [|x a IH]; [reflexivity|].
  rewrite append_cons, ends_with_slash_cons.
  destruct a as [|y a]; [now rewrite append_nil_l|].
  rewrite append_cons. rewrite append_cons in IH. exact IH.
Qed.

Section Layout.
Context (cfg : Config).

Lemma NODES_DIR_eq :
  NODES_DIR cfg = dir_prefix (BASE_DIR cfg) +:+ "geth_nodes".
Proof. unfold NODES_DIR. now apply path_join_relative. Qed.

Lemma OUT_DIR_eq : OUT_DIR cfg = dir_prefix (BASE_DIR cfg) +:+ "out".
Proof. unfold OUT_DIR. now apply path_join_relative. Qed.

Lemma NODES_DIR_no_slash : ends_with_slash (NODES_DIR cfg) = false.
Proof. rewrite NODES_DIR_eq. now rewrite ends_with_slash_app_r. Qed.

Lemma OUT_DIR_no_slash : ends_with_slash (OUT_DIR cfg) = false.
Proof. rewrite OUT_DIR_eq. now rewrite ends_with_slash_app_r. Qed.

Lemma NODES_DIR_not_nil : NODES_DIR cfg <> "".
Proof. rewrite NODES_DIR_eq. now apply append_not_nil. Qed.

Lemma OUT_DIR_not_nil : OUT_DIR cfg <> "".
Proof. rewrite OUT_DIR_eq. now apply append_not_nil. Qed.

Lemma node_dir_of_eq i :
  node_dir_of cfg i = NODES_DIR cfg +:+ "/node" +:+ str i.
Proof.
  unfold node_dir_of.
  rewrite path_join_plain;
    auto using NODES_DIR_no_slash, NODES_DIR_not_nil.
Qed.

Lemma node_dir_of_no_slash i : ends_with_slash (node_dir_of cfg i) = false.
Proof.
  rewrite node_dir_of_eq.
  change (NODES_DIR cfg +:+ "/node" +:+ str i)
    with (NODES_DIR cfg +:+ ("/node" +:+ str i)).
  rewrite <- (append_assoc _ "/node").
  apply ends_with_slash_app; [|apply str_not_slash].
  now rewrite ends_with_slash_app_r.
Qed.

Lemma node_dir_of_not_nil i : node_dir_of cfg i <> "".
Proof.
  rewrite node_dir_of_eq. apply append_not_nil. discriminate.
Qed.

Lemma datadir_of_eq i : datadir_of cfg i = node_dir_of cfg i +:+ "/data".
Proof.
  unfold datadir_of.
  rewrite path_join_plain;
    auto using node_dir_of_no_slash, node_dir_of_not_nil.
Qed.

Lemma pwfile_of_eq i : pwfile_of cfg i = datadir_of cfg i +:+ "/pw.txt".
Proof.
  unfold pwfile_of. rewrite path_join_plain; auto.
  - rewrite datadir_of_eq. now apply append_not_nil.
  - rewrite datadir_of_eq. now rewrite ends_with_slash_app_r.
Qed.

Lemma genesis_file_eq t :
  genesis_file cfg t
  = OUT_DIR cfg +:+ "/genesis_" +:+ str (int_seconds t) +:+ ".json".
Proof.
  unfold genesis_file.
  rewrite path_join_plain; auto using OUT_DIR_no_slash, OUT_DIR_not_nil.
Qed.

Lemma cluster_file_eq t :
  cluster_file cfg t
  = OUT_DIR cfg +:+ "/cluster_" +:+ str (int_seconds t) +:+ ".json".
Proof.
  unfold cluster_file.
  rewrite path_join_plain; auto using OUT_DIR_no_slash, OUT_DIR_not_nil.
Qed.



Lemma genesis_not_cluster t1 t2 : genesis_file cfg t1 <> cluster_file cfg t2.
Proof.
  rewrite genesis_file_eq, cluster_file_eq. intros H.
  apply append_inv_head in H. discriminate.
Qed.




(** No account-creation command is an init command. *)
Lemma account_cmd_not_init k i gp :
  account_cmd cfg (datadir_of cfg k) (pwfile_of cfg k)
  <> init_cmd cfg (node_dir_of cfg i) gp.
Proof.
  unfold account_cmd, init_cmd. fold (datadir_of cfg i).
  intros H. apply append_inv_head in H.
  apply (append_inv_head " --datadir ") in H.
  rewrite !datadir_of_eq, !node_dir_of_eq in H.
  rewrite !append_assoc in H. apply append_inv_head in H.
  apply (append_inv_head "/node") in H.
  apply split_at_slash in H as [_ H]; auto using str_not_slash.
  discriminate.
Qed.

End Layout.
End LayoutFacts.

(* ===================================================================== *)
(** * The steps of the flow, one by one *)
(* ===================================================================== *)

Module StepFacts.
Import PyStr PyStrFacts PathFacts Exec ExecFacts Provision Traces LayoutFacts.

(** Invert the run of a primitive action. *)
Ltac inv_prim E :=
  cbv [makedirs print emit ret raise spin time_time write_file sleep
       write_genesis bind] in E;
  first [ discriminate E | injection E as <- <- <- | injection E as <- <- ].

(** The three outcomes of parsing a tool report. *)
Ltac parsed_cases E :=
  match type of E with
  | match ?p with _ => _ end = _ =>
      let P := fresh "P" in
      destruct p as [[|? ?]|] eqn:P; cbn [truthy] in E; try discriminate E
  end.

Section Steps.
Context (cfg : Config) (w : World).

(** ** Straight-line helpers, as equations *)

Lemma create_account_run i s :
  let cmd := account_cmd cfg (datadir_of cfg i) (pwfile_of cfg i) in
  let pw := Text ("password" +:+ String (ascii_of_nat 10) "") in
  let cp := w_run w (st_step s) cmd in
  create_account cfg w (datadir_of cfg i) s
  = (match parsed_address cp with
     | Some a => if truthy (Some a) then Ret a
                 else Raise (account_error (account_output cp))
     | None => Raise (account_error (account_output cp))
     end,
     tick w 0 {| st_step := st_step s; st_clock := st_clock s;
                 st_fs := <[pwfile_of cfg i := pw]> (st_fs s) |},
     [EvWrite (pwfile_of cfg i) pw; EvPrint (Log_cmd cmd); EvRun cmd cp]).
Proof.
  cbv zeta. unfold create_account, create_password_file, run, bind,
    write_file, print, emit, subprocess_run, ret, parsed_address.
  fold (pwfile_of cfg i). cbn [st_step].
  destruct (find_address _) as [a|]; cbn [truthy].
  - destruct a; reflexivity.
  - reflexivity.
Qed.

Lemma init_geth_datadir_run node_dir gp s :
  let cmd := init_cmd cfg node_dir gp in
  let cp := w_run w (st_step s) cmd in
  init_geth_datadir cfg w node_dir gp s
  = if returncode cp =? 0
    then (Ret tt, tick w 0 s, [EvPrint (Log_cmd cmd); EvRun cmd cp])
    else (Raise (init_error node_dir), tick w 0 s,
          [EvPrint (Log_cmd cmd); EvRun cmd cp;
           EvPrint (Log_init_stderr (stderr cp))]).
Proof.
  cbv zeta. unfold init_geth_datadir, run, bind, print, emit,
    subprocess_run, ret, raise.
  destruct (returncode _ =? 0); reflexivity.
Qed.

Lemma start_geth_node_run node_dir idx unlock s :
  let cmd := start_cmd cfg node_dir idx unlock in
  let out := w_popen w (st_step s) cmd node_dir in
  start_geth_node cfg w node_dir idx unlock s
  = (Ret (strip out), tick w 0 s,
     [EvPopen cmd node_dir out;
      EvPrint (Log_start idx (strip out)
                 (path_join node_dir ("geth_" +:+ str idx +:+ ".log")))]).
Proof. reflexivity. Qed.

Lemma add_peer_via_rpc_run port enode s :
  let r := w_add_peer w (st_step s) port enode in
  add_peer_via_rpc w port enode s
  = (Ret (peer_outcome r), tick w 0 s,
     EvAddPeer port enode r ::
     match r with
     | RpcReturn _ => []
     | RpcRaise => [EvPrint Log_add_peer_error]
     end).
Proof.
  cbv zeta. unfold add_peer_via_rpc, bind, rpc_add_peer.
  destruct (w_add_peer _ _ _ _); reflexivity.
Qed.

(** ** Step 1: accounts *)

Lemma init_nodes_loop_spec idxs : forall p0 a0 s r s' t,
  init_nodes_loop cfg w idxs p0 a0 s = (r, s', t) ->
  Forall (account_event cfg) t
  /\ st_clock s <= st_clock s'
  /\ (forall p, ~ is_pwfile cfg p -> st_fs s' !! p = st_fs s !! p)
  /\ match r with
     | Ret (p, a) =>
         p = p0 ++ map (node_dir_of cfg) idxs
         /\ map Some a
            = map Some a0
              ++ map (fun x => parsed_address (snd x)) (run_results t)
         /\ length a = (length a0 + length idxs)%nat
     | Raise e => exists out, e = account_error out
     | Spin => False
     end.
Proof.
  induction idxs as [|i rest IH]; intros p0 a0 s r s' t H.
  - injection H as <- <- <-. repeat split; auto; try lia.
    + now rewrite app_nil_r.
    + now rewrite app_nil_r.
  - cbn [init_nodes_loop] in H. fold (datadir_of cfg i) in H.
    run_bind H; inv_prim E.
    run_bind H; rewrite create_account_run in E.
    + (* the account was created *)
      injection E as Ea <- <-.
      run_bind H; inv_prim E.
      apply IH in H as (Hev & Hclk & Hfs & Hr).
      split; [|split; [|split]].
      * cbn [app]. repeat constructor; try (now exists i). exact Hev.
      * cbn [tick st_clock] in Hclk. lia.
      * intros p Hp. rewrite Hfs by exact Hp. cbn [tick st_fs].
        apply lookup_insert_ne. intros <-. apply Hp. now exists i.
      * destruct r as [[p a']| |]; auto.
        destruct Hr as (-> & Ha & Hlen). repeat split.
        -- now rewrite <- app_assoc.
        -- rewrite Ha, map_app. cbn [app run_results map snd].
           rewrite <- app_assoc. cbn [app map]. do 2 f_equal.
           parsed_cases Ea. now injection Ea as <-.
        -- rewrite Hlen, length_app. cbn [length]. lia.
    + (* no parseable address *)
      injection E as Ea <- <-.
      split; [|split; [|split]].
      * repeat constructor; try (now exists i).
      * cbn [tick st_clock]. lia.
      * intros p Hp. cbn [tick st_fs].
        apply lookup_insert_ne. intros <-. apply Hp. now exists i.
      * parsed_cases Ea; injection Ea as <-; eauto.
    + exfalso. injection E as Ea _ _. parsed_cases Ea.
Qed.

(** ** Step 3: init *)

Lemma init_loop_spec gp paths : forall s r s' t,
  for_each paths (fun nd => init_geth_datadir cfg w nd gp) s = (r, s', t) ->
  Forall init_event t
  /\ st_clock s <= st_clock s'
  /\ st_fs s' = st_fs s
  /\ match r with
     | Ret _ => Forall init_ok_event t
     | Raise e => exists nd, In nd paths /\ e = init_error nd
     | Spin => False
     end.
Proof.
  induction paths as [|nd rest IH]; intros s r s' t H.
  - injection H as <- <- <-. repeat split; auto; lia.
  - cbn [for_each] in H. run_bind H; rewrite init_geth_datadir_run in E;
      destruct (returncode _ =? 0) eqn:Hrc; try discriminate E.
    + injection E as <- <- <-.
      apply IH in H as (Hev & Hclk & Hfs & Hr).
      cbn [tick st_clock st_fs] in Hclk, Hfs.
      split; [|split; [|split]].
      * cbn [app]. repeat constructor. exact Hev.
      * lia.
      * exact Hfs.
      * destruct r as [[]|e|]; auto.
        -- cbn [app]. repeat constructor; [|exact Hr].
           cbn [init_ok_event]. lia.
        -- destruct Hr as (nd' & Hin & ->). exists nd'. split; [now right|auto].
    + injection E as <- <- <-. cbn [tick st_clock st_fs].
      repeat split; try lia.
      * repeat constructor.
      * exists nd. split; [now left | reflexivity].
Qed.

(** ** Step 4: start *)


Lemma index_inv {A} (l : list A) i s r s' t :
  index l i s = (r, s', t) ->
  s' = s /\ t = []
  /\ match r with
     | Ret _ => True
     | Raise e => e = IndexError /\ ~ (0 <= i < Z.of_nat (length l))
     | Spin => False
     end.
Proof.
  unfold index.
  destruct (i <? 0) eqn:Hneg.
  - apply Z.ltb_lt in Hneg.
    destruct (_ <? 0); [|destruct (nth_error _ _)];
      intros [= <- <- <-]; repeat split; lia.
  - rewrite Hneg. apply Z.ltb_ge in Hneg.
    destruct (nth_error _ _) eqn:Hn; intros [= <- <- <-];
      repeat split; auto.
    apply nth_error_None in Hn. lia.
Qed.

Lemma start_nodes_loop_spec paths : forall start addrs pids0 s r s' t,
  start_nodes_loop cfg w (enumerate paths start) addrs pids0 s = (r, s', t) ->
  Forall start_event t
  /\ st_fs s' = st_fs s
  /\ st_clock s <= st_clock s'
  /\ match r with
     | Ret pids =>
         st_clock s + 2 * MICROS * Z.of_nat (length paths) <= st_clock s'
         /\ length pids = (length pids0 + length paths)%nat
     | Raise e =>
         e = IndexError
         /\ ~ (1 <= start /\ start - 1 + Z.of_nat (length paths)
                              <= Z.of_nat (length addrs))
     | Spin => False
     end.
Proof.
  induction paths as [|nd rest IH]; intros start addrs pids0 s r s' t H.
  - injection H as <- <- <-. repeat split; auto; cbn [length]; lia.
  - cbn [enumerate start_nodes_loop] in H.
    run_bind H; apply index_inv in E as (-> & -> & Hi); try contradiction.
    + (* the unlock address exists *)
      run_bind H; rewrite start_geth_node_run in E; try discriminate E.
      injection E as <- <- <-.
      run_bind H; inv_prim E.
      apply IH in H as (Hev & Hfs & Hclk & Hr).
      cbn [tick st_clock st_fs] in Hclk, Hfs, Hr.
      split; [|split; [|split]].
      * cbn [app]. repeat constructor. exact Hev.
      * exact Hfs.
      * unfold MICROS in *. lia.
      * destruct r as [pids|e|]; auto.
        -- destruct Hr as [Hc Hl]. rewrite length_app in Hl.
           cbn [length] in *. unfold MICROS in *. split; lia.
        -- destruct Hr as [-> Hr]. split; [reflexivity|].
           cbn [length]. lia.
    + (* IndexError *)
      destruct Hi as [-> Hi].
      split; [constructor|]. split; [reflexivity|]. split; [lia|].
      split; [reflexivity|]. cbn [length]. lia.
Qed.

(** ** Step 5: discovery and peering *)

Lemma failed_polls_app t1 t2 :
  failed_polls (t1 ++ t2) = (failed_polls t1 + failed_polls t2)%nat.
Proof. unfold failed_polls. now rewrite List.filter_app, length_app. Qed.

Lemma get_enode_loop_spec port : forall fuel a s r s' t,
  0 <= a <= RETRY_CEILING ->
  get_enode_loop w fuel port a s = (r, s', t) ->
  Forall discover_event t
  /\ st_fs s' = st_fs s
  /\ st_clock s <= st_clock s'
  /\ match r with
     | Ret e =>
         e <> ""
         /\ a + Z.of_nat (failed_polls t) < RETRY_CEILING
         /\ exists t0,
              t = t0 ++ [EvNodeInfo port (RpcReturn (Some e))]
              /\ Forall (fun ev => is_usable_node_info ev = false) t0
     | Raise x =>
         x = enode_error port
         /\ a + Z.of_nat (failed_polls t) = RETRY_CEILING
         /\ Forall (fun ev => is_usable_node_info ev = false) t
     | Spin =>
         a + Z.of_nat (failed_polls t) < RETRY_CEILING
         /\ Forall (fun ev => is_usable_node_info ev = false) t
     end.
Proof.
  unfold RETRY_CEILING.
  induction fuel as [|fuel IH]; intros a s r s' t Ha H.
  - cbn [get_enode_loop] in H. unfold RETRY_CEILING in H.
    destruct (a <? 10) eqn:Hlt; injection H as <- <- <-.
    + apply Z.ltb_lt in Hlt. cbn. repeat split; auto; lia.
    + apply Z.ltb_ge in Hlt. cbn. repeat split; auto; lia.
  - cbn [get_enode_loop] in H. unfold RETRY_CEILING in H.
    destruct (a <? 10) eqn:Hlt.
    2:{ injection H as <- <- <-. apply Z.ltb_ge in Hlt.
        cbn. repeat split; auto; lia. }
    apply Z.ltb_lt in Hlt.
    run_bind H; unfold rpc_node_info in E; try discriminate E.
    injection E as <- <- <-.
    destruct (w_node_info w (st_step s) port) as [o|] eqn:Hw.
    + destruct (truthy o) eqn:Ho.
      * (* a usable address *)
        destruct o as [e|]; [|discriminate Ho].
        injection H as <- <- <-. cbn [tick st_clock st_fs].
        split; [repeat constructor|]. split; [reflexivity|].
        split; [lia|]. split; [destruct e; [discriminate Ho | discriminate]|].
        split; [cbn; lia|]. exists []. split; [reflexivity | constructor].
      * (* an answer without one: same [attempts], no sleep *)
        assert (H' : get_enode_loop w fuel port a (tick w 0 s)
                     = (r, s', t1)) by (destruct o; exact H).
        apply IH in H' as (Hev & Hfs & Hclk & Hr); [|lia].
        cbn [tick st_clock st_fs] in Hclk, Hfs.
        split; [cbn [app]; repeat constructor; exact Hev|].
        split; [exact Hfs|]. split; [lia|].
        rewrite failed_polls_app.
        change (failed_polls [EvNodeInfo port (RpcReturn o)]) with 0%nat.
        assert (Hu : is_usable_node_info (EvNodeInfo port (RpcReturn o))
                     = false) by exact Ho.
        destruct r as [e|x|].
        -- destruct Hr as (He & Hc & t0 & -> & Ht0).
           split; [exact He|]. split; [lia|].
           exists (EvNodeInfo port (RpcReturn o) :: t0).
           split; [reflexivity | now constructor].
        -- destruct Hr as (-> & Hc & Ht). repeat split; [lia|].
           now constructor.
        -- destruct Hr as (Hc & Ht). split; [lia | now constructor].
    + (* the call raised: count it, sleep, try again *)
      run_bind H; inv_prim E.
      apply IH in H as (Hev & Hfs & Hclk & Hr); [|lia].
      cbn [tick st_clock st_fs st_step] in Hclk, Hfs.
      split; [cbn [app]; repeat constructor; exact Hev|].
      split; [exact Hfs|]. split; [unfold MICROS in Hclk; lia|].
      rewrite !failed_polls_app.
      change (failed_polls [EvNodeInfo port RpcRaise]) with 1%nat.
      change (failed_polls [EvSleep 1]) with 0%nat.
      destruct r as [e|x|].
      * destruct Hr as (He & Hc & t' & -> & Ht').
        split; [exact He|]. split; [lia|].
        exists (EvNodeInfo port RpcRaise :: EvSleep 1 :: t').
        split; [reflexivity | now repeat constructor].
      * destruct Hr as (-> & Hc & Ht). repeat split; [lia|].
        now repeat constructor.
      * destruct Hr as (Hc & Ht). split; [lia | now repeat constructor].
Qed.

Lemma peer_body_run idx enode s :
  let r := w_add_peer w (st_step s) (Ports.get_node_http_port idx) enode in
  bind (add_peer_via_rpc w (Ports.get_node_http_port idx) enode)
       (fun ok => print (Log_add_peer idx ok)) s
  = (Ret tt, tick w 0 s,
     (EvAddPeer (Ports.get_node_http_port idx) enode r ::
      match r with
      | RpcReturn _ => []
      | RpcRaise => [EvPrint Log_add_peer_error]
      end) ++ [EvPrint (Log_add_peer idx (peer_outcome r))]).
Proof. cbv zeta. unfold bind. now rewrite add_peer_via_rpc_run. Qed.

Lemma peer_loop_spec enode idxs : forall s r s' t,
  for_each idxs (fun idx =>
    bind (add_peer_via_rpc w (Ports.get_node_http_port idx) enode)
         (fun ok => print (Log_add_peer idx ok))) s = (r, s', t) ->
  r = Ret tt
  /\ st_fs s' = st_fs s
  /\ st_clock s <= st_clock s'
  /\ Forall peer_event t
  /\ map fst (add_peer_calls t)
     = map (fun idx => (Ports.get_node_http_port idx, enode)) idxs
  /\ add_peer_logs t
     = combine idxs (map (fun c => peer_outcome (snd c)) (add_peer_calls t)).
Proof.
  induction idxs as [|idx rest IH]; intros s r s' t H.
  - injection H as <- <- <-. repeat split; auto; lia.
  - cbn [for_each] in H.
    run_bind H; rewrite peer_body_run in E; try discriminate E.
    injection E as <- <- <-.
    apply IH in H as (-> & Hfs & Hclk & Hev & Hcalls & Hlogs).
    cbn [tick st_clock st_fs] in Hclk, Hfs.
    split; [reflexivity|]. split; [exact Hfs|]. split; [lia|].
    destruct (w_add_peer w (st_step s) (Ports.get_node_http_port idx) enode)
      as [b|]; cbn [app add_peer_calls add_peer_logs map fst snd combine].
    + split; [repeat constructor; exact Hev|].
      rewrite Hcalls, Hlogs. auto.
    + split; [repeat constructor; exact Hev|].
      rewrite Hcalls, Hlogs. auto.
Qed.

End Steps.
End StepFacts.

(* ===================================================================== *)
(** * The whole flow *)
(* ===================================================================== *)

Module FlowFacts.
Import PyStr PyStrFacts PathFacts Exec ExecFacts Provision Traces LayoutFacts
  StepFacts.

(** Bring a concatenation of traces into right-nested form. *)
Ltac norm_trace :=
  unfold genesis_events; rewrite <- ?app_assoc; cbn [app];
  rewrite ?app_nil_r; reflexivity.

Section Flow.
Context (cfg : Config) (w : World).

Lemma run_shape_eq N chain s r s' t1 t2 :
  run_shape cfg N chain s r s' t1 -> t2 = t1 ->
  run_shape cfg N chain s r s' t2.
Proof. now intros H ->. Qed.

(** Every run of [provision_cluster] has one of the five shapes. *)
Lemma provision_cluster_shape fuel N chain s r s' t :
  provision_cluster cfg w fuel N chain s = (r, s', t) ->
  run_shape cfg N chain s r s' t.
Proof.
  unfold provision_cluster. intros H.
  (* Step 1 *)
  run_bind H; unfold init_nodes in E;
    apply init_nodes_loop_spec in E as (Hta & Hclk1 & Hfs1 & Hr1).
  2:{ destruct Hr1 as [out ->]. now constructor. }
  2:{ contradiction. }
  destruct a as [paths addrs]. destruct Hr1 as (Hpaths & _ & Hlen).
  cbn [app] in Hpaths. cbn [length Nat.add] in Hlen.
  rewrite length_range in Hlen.
  replace (N + 1 - 1) with N in Hlen by lia.
  cbn [fst snd] in H. subst paths.
  run_bind H; inv_prim E.
  (* Step 2 *)
  run_bind H; inv_prim E.
  run_bind H; inv_prim E.
  match goal with
  | |- context [genesis_file cfg ?x] => set (tgen := x) in *
  end.
  assert (Htgen : st_clock s <= tgen) by (unfold tgen; lia).
  (* Step 3 *)
  run_bind H; apply init_loop_spec in E as (Hti & Hclk3 & Hfs3 & Hr3);
    cbn [st_clock st_fs] in Hclk3, Hfs3.
  2:{ destruct Hr3 as (nd & Hnd & ->).
      eapply run_shape_eq;
        [apply (Shape_init_failed cfg N chain s t0 addrs tgen t nd); auto
        | norm_trace]. }
  2:{ contradiction. }
  (* Step 4 *)
  run_bind H; apply start_nodes_loop_spec in E as (Hts & Hfs4 & Hclk4 & Hr4).
  2:{ exfalso. destruct Hr4 as [_ Hr4]. apply Hr4.
      rewrite length_map, length_range. lia. }
  2:{ contradiction. }
  destruct Hr4 as [Hclk4' Hpids].
  rewrite length_map, length_range in Hclk4', Hpids.
  replace (N + 1 - 1) with N in Hclk4', Hpids by lia.
  cbn [length Nat.add] in Hpids.
  (* Step 5 *)
  run_bind H; unfold get_enode_via_rpc in E;
    apply get_enode_loop_spec in E as (Htd & Hfs5 & Hclk5 & Hr5);
    try (unfold RETRY_CEILING; lia).
  2:{ destruct Hr5 as (-> & Hc & Hu).
      eapply run_shape_eq;
        [apply (Shape_discovery_failed cfg N chain s t0 addrs tgen t t2 t1);
         auto
        | norm_trace]. }
  2:{ destruct Hr5 as (Hc & Hu).
      eapply run_shape_eq;
        [apply (Shape_discovery_spinning cfg N chain s t0 addrs tgen t t2 t1);
         auto
        | norm_trace]. }
  destruct Hr5 as (He & Hc & td & -> & Hu).
  run_bind H; inv_prim E.
  run_bind H; apply peer_loop_spec in E
    as (Er & Hfs6 & Hclk6 & Htp & Hcalls & Hlogs); try discriminate Er.
  (* Step 6 *)
  cbv [bind time_time write_file ret tick] in H.
  cbn [st_clock st_step st_fs] in H. injection H as <- <- <-.
  match goal with
  | |- context [int_seconds ?x] => set (tmeta := x) in *
  end.
  match goal with
  | |- context [cluster_file cfg ?x] => set (tpath := x) in *
  end.
  rewrite failed_polls_app in Hc.
  change (failed_polls [EvNodeInfo _ (RpcReturn (Some a1))]) with 0%nat in Hc.
  apply Forall_app in Htd as [Htd _].
  eapply run_shape_eq;
    [apply (Shape_completed cfg N chain s t0 addrs tgen t t2 td a1 t1
              a0 tmeta tpath); auto
    | norm_trace]; cbn [st_clock st_fs]; try lia.
  - rewrite lookup_insert_ne by apply not_eq_sym, genesis_not_cluster.
    rewrite Hfs6, Hfs5, Hfs4, Hfs3. apply lookup_insert_eq.
  - apply lookup_insert_eq.
  - intros p Hp Hg Hc'.
    rewrite lookup_insert_ne by auto.
    rewrite Hfs6, Hfs5, Hfs4, Hfs3.
    rewrite lookup_insert_ne by auto.
    now apply Hfs1.
Qed.

(** The entry point performs the actions of [provision_cluster] and turns
    an exception into an error response; it raises nothing itself. *)
Lemma api_provision_run fuel N chain s :
  let inner := provision_cluster cfg w fuel N chain s in
  let outer := api_provision cfg w fuel N chain s in
  snd outer = snd inner
  /\ snd (fst outer) = snd (fst inner)
  /\ fst (fst outer)
     = match fst (fst inner) with
       | Ret r => Ret (ResponseOk r)
       | Raise e => Ret (ResponseError e)
       | Spin => Spin
       end.
Proof.
  cbv zeta. unfold api_provision.
  destruct (provision_cluster cfg w fuel N chain s) as [[[r|e|] s'] t];
    repeat split.
Qed.

End Flow.
End FlowFacts.

(* ===================================================================== *)
(** * Observations on traces *)
(* ===================================================================== *)

Module TraceFacts.
Import Exec Provision Traces.

Lemma add_peer_calls_app t1 t2 :
  add_peer_calls (t1 ++ t2) = add_peer_calls t1 ++ add_peer_calls t2.
Proof.
  induction t1 as [|e t1 IH]; [reflexivity|].
  destruct e; cbn [app add_peer_calls]; rewrite IH; reflexivity.
Qed.

Lemma add_peer_logs_app t1 t2 :
  add_peer_logs (t1 ++ t2) = add_peer_logs t1 ++ add_peer_logs t2.
Proof.
  induction t1 as [|e t1 IH]; [reflexivity|].
  destruct e as [[]| | | | | | |]; cbn [app add_peer_logs]; rewrite IH;
    reflexivity.
Qed.

Lemma add_peer_calls_none t : Forall before_peering t -> add_peer_calls t = [].
Proof.
  induction 1 as [|e t He _ IH]; [reflexivity|].
  destruct e; cbn [add_peer_calls]; auto. contradiction.
Qed.

Lemma add_peer_logs_none t : Forall before_peering t -> add_peer_logs t = [].
Proof.
  induction 1 as [|e t He _ IH]; [reflexivity|].
  destruct e as [[]| | | | | | |]; cbn [add_peer_logs]; auto. contradiction.
Qed.

Lemma failed_polls_none t :
  Forall (fun e => is_failed_node_info e = false) t -> failed_polls t = 0%nat.
Proof.
  unfold failed_polls. induction 1 as [|e t He _ IH]; [reflexivity|].
  cbn [List.filter]. now rewrite He.
Qed.

End TraceFacts.

(* ===================================================================== *)
(** * The provisioning run *)
(* ===================================================================== *)

Module Claims.
Import PyStr PyStrFacts PathFacts Genesis GenesisFacts Exec ExecFacts
  Provision Traces LayoutFacts StepFacts FlowFacts TraceFacts Scenarios.

Lemma Forall_In {A} (P : A -> Prop) (l : list A) (x : A) :
  Forall P l -> In x l -> P x.
Proof. intros H. now apply List.Forall_forall. Qed.

(** All the cases of an event. *)
Ltac event_cases e :=
  destruct e as [[]| | ? []| | | ? [[[]|]|] | ? ? []|]; cbn in *.

(** [H : Forall C t] for a step's class [C] gives the goal [Forall P t]
    when [P] holds of every event of the class. *)
Ltac by_class H :=
  eapply List.Forall_impl; [|exact H];
  let e := fresh "e" in
  intros e ?; event_cases e;
  try contradiction; try discriminate; auto.

(** Split [H : In e (t1 ++ ... ++ tn)] into its cases. *)
Ltac in_pieces H :=
  repeat (apply in_app_or in H; destruct H as [H|H]).

(** [H : In e t] is absurd: either [t] belongs to a step whose class
    (some [C : Forall class t]) has no event like [e], which [tac] may
    have to argue from the instance of the class at [e], or [t] is an
    explicit list without [e]. *)
Ltac event_absurd_with H tac :=
  exfalso;
  first
    [ match type of H with
      | In _ ?l =>
          match goal with
          | C : Forall _ l |- _ =>
              let C' := fresh "C" in
              pose proof (Forall_In _ _ _ C H) as C'; cbn in C';
              solve [ contradiction | discriminate | tac C' ]
          end
      end
    | cbn in H; intuition discriminate ].

Section Claims.
Context (cfg : Config) (w : World).

(** C4. If an init command of some node exits with a non-zero status, the
    run ends with the init error and its trace has no node start, not even
    for the nodes whose init went through. *)
Theorem init_failure_stops_before_start
    fuel N chain s r s' t (i : Z) (gp : string) (cp : CompletedProcess) :
  provision_cluster cfg w fuel N chain s = (r, s', t) ->
  In (EvRun (init_cmd cfg (node_dir_of cfg i) gp) cp) t ->
  returncode cp <> 0 ->
  (exists nd, In nd (node_paths cfg N) /\ r = Raise (init_error nd))
  /\ Forall (fun e => is_start e = false) t.
Proof.
  intros Hrun Hin Hrc. apply provision_cluster_shape in Hrun.
  pose (no_account := fun C : exists k,
          init_cmd cfg (node_dir_of cfg i) gp
          = account_cmd cfg (datadir_of cfg k) (pwfile_of cfg k) =>
          match C with
          | ex_intro _ k Hk => account_cmd_not_init cfg k i gp (eq_sym Hk)
          end).
  inversion Hrun; subst; clear Hrun.
  - event_absurd_with Hin ltac:(fun C => exact (no_account C)).
  - split; [eauto|].
    repeat (apply Forall_app; split);
      first [ by_class H | by_class H0 | repeat constructor ].
  - in_pieces Hin;
      event_absurd_with Hin ltac:(fun C => exact (no_account C)).
  - in_pieces Hin;
      event_absurd_with Hin ltac:(fun C => exact (no_account C)).
  - in_pieces Hin;
      event_absurd_with Hin ltac:(fun C => exact (no_account C)).
Qed.

(** Count the failed polls of a trace piece by piece; [tac] proves that
    a step's class has none. *)
Ltac count_polls Hn tac :=
  rewrite ?failed_polls_app in Hn;
  repeat match type of Hn with
         | context [failed_polls ?l] =>
             rewrite (failed_polls_none l) in Hn by tac
         end;
  unfold genesis_events in Hn; unfold RETRY_CEILING in *; cbn in Hn.

(** C5. If ten polls of the bootstrap node raised, the run ends with the
    discovery error: its trace has no [add_peer] call and no write of a
    cluster record, and no record is returned. *)
Theorem exhausted_discovery_stops_run fuel N chain s r s' t :
  provision_cluster cfg w fuel N chain s = (r, s', t) ->
  Z.of_nat (failed_polls t) = RETRY_CEILING ->
  r = Raise (enode_error (Ports.get_node_http_port 1))
  /\ add_peer_calls t = []
  /\ Forall (fun e => is_cluster_write e = false) t.
Proof.
  intros Hrun Hn. apply provision_cluster_shape in Hrun.
  inversion Hrun; subst; clear Hrun;
    try (count_polls Hn ltac:(first [ by_class H | by_class H0 | by_class H1
                                    | by_class H6 ]); lia).
  split; [reflexivity|]. split.
  - apply add_peer_calls_none.
    repeat (apply Forall_app; split);
      first [ by_class H | by_class H0 | by_class H1 | by_class H2
            | repeat constructor ].
  - repeat (apply Forall_app; split);
      first [ by_class H | by_class H0 | by_class H1 | by_class H2
            | repeat constructor ].
Qed.

(** The peering events of a completed run are those of its peering
    loop. *)
Lemma peering_part chain addrs tgen ta ti ts td (e1 e2 e3 : event) tp :
  Forall (account_event cfg) ta -> Forall init_ok_event ti ->
  Forall start_event ts -> Forall discover_event td ->
  before_peering e1 -> before_peering e2 -> before_peering e3 ->
  let t := ta ++ genesis_events cfg chain addrs tgen ++ ti ++ ts
              ++ td ++ [e1; e2] ++ tp ++ [e3] in
  add_peer_calls t = add_peer_calls tp /\ add_peer_logs t = add_peer_logs tp.
Proof.
  intros Ha Hi Hs Hd H1 H2 H3 t. unfold t.
  rewrite !add_peer_calls_app, !add_peer_logs_app.
  rewrite (add_peer_calls_none ta), (add_peer_logs_none ta) by by_class Ha.
  rewrite (add_peer_calls_none ti), (add_peer_logs_none ti) by by_class Hi.
  rewrite (add_peer_calls_none ts), (add_peer_logs_none ts) by by_class Hs.
  rewrite (add_peer_calls_none td), (add_peer_logs_none td) by by_class Hd.
  rewrite (add_peer_calls_none [e1; e2]), (add_peer_logs_none [e1; e2])
    by (repeat constructor; assumption).
  rewrite (add_peer_calls_none [e3]), (add_peer_logs_none [e3])
    by (repeat constructor; assumption).
  cbn [genesis_events add_peer_calls add_peer_logs app].
  now rewrite !app_nil_r.
Qed.

(** C6. Once the bootstrap node has given a usable address, every node
    2..N gets exactly one [add_peer] call with that address, in order;
    each call is followed by a printed outcome, [False] when the call
    raised or answered [False]; and the run completes: it writes and
    returns a cluster record whatever the outcomes were. *)
Theorem peering_is_best_effort fuel N chain s r s' t port enode :
  provision_cluster cfg w fuel N chain s = (r, s', t) ->
  In (EvNodeInfo port (RpcReturn (Some enode))) t ->
  enode <> "" ->
  map fst (add_peer_calls t)
  = map (fun idx => (Ports.get_node_http_port idx, enode)) (range 2 (N + 1))
  /\ add_peer_logs t
     = combine (range 2 (N + 1))
               (map (fun c => peer_outcome (snd c)) (add_peer_calls t))
  /\ exists rec,
       r = Ret rec
       /\ meta_num_nodes (meta rec) = N
       /\ In (EvWrite (meta_path rec) (JsonCluster (meta rec))) t
       /\ st_fs s' !! meta_path rec = Some (JsonCluster (meta rec)).
Proof.
  intros Hrun Hin He. apply provision_cluster_shape in Hrun.
  pose (usable := fun C : truthy (Some enode) = false =>
          match enode as x return x <> "" -> truthy (Some x) = false -> False
          with
          | EmptyString => fun H _ => H eq_refl
          | String _ _ => fun _ H => diff_true_false H
          end He C).
  inversion Hrun; subst; clear Hrun;
    in_pieces Hin;
    try (event_absurd_with Hin ltac:(fun C => exact (usable C))).
  destruct Hin as [Hin|[Hin|[]]]; [|discriminate Hin].
  injection Hin as -> ->.
  destruct (peering_part chain addrs tgen ta ti ts td
              (EvNodeInfo port (RpcReturn (Some enode)))
              (EvPrint (Log_boot_enode enode))
              (EvWrite (cluster_file cfg tpath) (JsonCluster m)) tp)
    as [-> ->]; auto; try exact I.
  split; [assumption|]. split; [assumption|].
  eexists. split; [reflexivity|]. cbn [meta meta_path]. split; [reflexivity|].
  split; [|assumption].
  repeat (apply in_or_app; right). now left.
Qed.

(** The first action of discovery is a poll. *)
Lemma first_poll fuel port s r s' t :
  get_enode_via_rpc w (S fuel) port s = (r, s', t) ->
  exists rest, t = EvNodeInfo port (w_node_info w (st_step s) port) :: rest.
Proof.
  unfold get_enode_via_rpc. cbn [get_enode_loop].
  change (0 <? RETRY_CEILING) with true. cbv iota. intros H.
  run_bind H; unfold rpc_node_info in E; try discriminate E.
  injection E as <- <- <-. eauto.
Qed.

(** C10. A request for zero nodes is not rejected: step 1 returns empty
    lists without any action, the genesis descriptor carries 32 + 65 zero
    bytes and no authority, and after writing it the run polls the RPC port
    of node 1, [HTTP_BASE], although no node was created or started. *)
Theorem zero_nodes_not_rejected fuel chain s :
  init_nodes cfg w 0 chain s = (Ret ([], []), s, [])
  /\ extraData (build_clique_genesis chain [] DEFAULT_GAS_LIMIT)
     = "0x" +:+ repeat_str "00" (32 + 65)
  /\ bytes_of_0x (extraData (build_clique_genesis chain [] DEFAULT_GAS_LIMIT))
     = Some (repeat 0 (32 + 65))
  /\ exists r s' tgen rest,
       provision_cluster cfg w (S fuel) 0 chain s
       = (r, s',
          genesis_events cfg chain [] tgen
            ++ EvNodeInfo Ports.HTTP_BASE
                 (w_node_info w (S (st_step s)) Ports.HTTP_BASE)
               :: rest).
Proof.
  split; [reflexivity|]. split; [reflexivity|]. split; [reflexivity|].
  destruct (provision_cluster cfg w (S fuel) 0 chain s) as [[r s'] t] eqn:H.
  exists r, s'. unfold provision_cluster in H.
  run_bind H; try discriminate E. injection E as <- <- <-.
  cbn [fst snd] in H.
  run_bind H; inv_prim E.
  run_bind H; inv_prim E.
  run_bind H; inv_prim E.
  change (range 1 (0 + 1)) with (@nil Z) in H. cbn [map for_each] in H.
  run_bind H; inv_prim E.
  cbn [enumerate start_nodes_loop] in H.
  run_bind H; inv_prim E.
  match type of H with
  | context [genesis_file cfg ?x] => exists x
  end.
  run_bind H; apply first_poll in E as [rest ->]; cbn [st_step];
    eexists; unfold genesis_events; cbn [app]; reflexivity.
Qed.


End Claims.


(** ** Discovery (C2) *)

Section Discovery.
Context (w : World).

(** What the claim gets right: polls that raise are counted, and a usable
    answer after [n] of them, [n] below the ceiling, is returned. *)
Lemma discovery_survives_failures port e : forall n fuel a s,
  e <> "" -> 0 <= a -> a + Z.of_nat n < RETRY_CEILING -> (n < fuel)%nat ->
  (forall k, (k < n)%nat ->
     w_node_info w (st_step s + 2 * k) port = RpcRaise) ->
  w_node_info w (st_step s + 2 * n) port = RpcReturn (Some e) ->
  exists s' t,
    get_enode_loop w fuel port a s = (Ret e, s', t)
    /\ failed_polls t = n.
Proof.
  unfold RETRY_CEILING.
  induction n as [|n IH]; intros fuel a s He Ha Hlt Hfuel Hfail Hok.
  - destruct fuel as [|fuel]; [lia|]. cbn [get_enode_loop].
    unfold RETRY_CEILING. replace (a <? 10) with true by lia.
    unfold bind, rpc_node_info.
    replace (st_step s + 2 * 0)%nat with (st_step s) in Hok by lia.
    rewrite Hok. destruct e; [congruence|]. cbn. eauto.
  - destruct fuel as [|fuel]; [lia|]. cbn [get_enode_loop].
    unfold RETRY_CEILING. replace (a <? 10) with true by lia.
    assert (Hw0 : w_node_info w (st_step s) port = RpcRaise).
    { rewrite <- (Hfail 0%nat) by lia. f_equal. lia. }
    unfold bind at 1. unfold rpc_node_info. rewrite Hw0.
    unfold bind at 1. unfold sleep at 1.
    destruct (IH fuel (a + 1) (tick w (1 * MICROS) (tick w 0 s)))
      as (s' & t & Hrun & Hcount); auto; try lia.
    + intros k Hk. cbn [tick st_step].
      rewrite <- (Hfail (S k)) by lia. f_equal. lia.
    + cbn [tick st_step]. rewrite <- Hok. f_equal. lia.
    + rewrite Hrun. eexists _, _. split; [reflexivity|].
      cbn [app]. unfold failed_polls in *. cbn. now rewrite Hcount.
Qed.

(** The "in particular" of C2: nine failures, then an answer. *)
Lemma discovery_survives_nine_failures port e s fuel :
  e <> "" -> (10 <= fuel)%nat ->
  (forall k, (k < 9)%nat ->
     w_node_info w (st_step s + 2 * k) port = RpcRaise) ->
  w_node_info w (st_step s + 18) port = RpcReturn (Some e) ->
  exists s' t,
    get_enode_via_rpc w fuel port s = (Ret e, s', t)
    /\ failed_polls t = 9%nat.
Proof.
  intros He Hfuel Hfail Hok.
  apply (discovery_survives_failures port e 9 fuel 0 s); auto;
    unfold RETRY_CEILING; lia.
Qed.

(** As long as every answer either raises or carries a usable address,
    [RETRY_CEILING - attempts] passes through the loop are enough. *)
Lemma discovery_bounded_without_empty_answers port :
  (forall k, match w_node_info w k port with
             | RpcReturn o => truthy o = true
             | RpcRaise => True
             end) ->
  forall fuel a s,
    0 <= a -> RETRY_CEILING - a <= Z.of_nat fuel ->
    fst (fst (get_enode_loop w fuel port a s)) <> Spin.
Proof.
  unfold RETRY_CEILING. intros Hw.
  induction fuel as [|fuel IH]; intros a s Ha Hfuel.
  - cbn [get_enode_loop]. unfold RETRY_CEILING.
    replace (a <? 10) with false by lia. discriminate.
  - cbn [get_enode_loop]. unfold RETRY_CEILING.
    destruct (a <? 10) eqn:Hlt; [|discriminate].
    unfold bind at 1. unfold rpc_node_info.
    specialize (Hw (st_step s)).
    destruct (w_node_info w (st_step s) port) as [o|].
    + rewrite Hw. destruct o as [e|]; [|discriminate Hw].
      cbn. discriminate.
    + unfold bind at 1. unfold sleep at 1.
      specialize (IH (a + 1) (tick w (1 * MICROS) (tick w 0 s))).
      destruct (get_enode_loop w fuel port (a + 1) _) as [[r s'] t].
      cbn [fst] in *. apply IH; lia.
Qed.

End Discovery.

(** C2 fails on the code. When the bootstrap node answers [node_info]
    without an "enode" entry, the loop neither counts the attempt nor
    sleeps: whatever the fuel, discovery is still polling when it runs out,
    after [fuel] polls in a row and nothing else. *)
Theorem discovery_spins_on_empty_answers (fuel : nat) (port : Z) (s : State) :
  exists s',
    get_enode_via_rpc w_empty_info fuel port s
    = (Spin, s', repeat (EvNodeInfo port (RpcReturn None)) fuel)
    /\ st_step s' = (st_step s + fuel)%nat.
Proof.
  unfold get_enode_via_rpc. revert s.
  induction fuel as [|fuel IH]; intros s.
  - exists s. split; [reflexivity | lia].
  - destruct (IH (tick w_empty_info 0 s)) as (s' & Hrun & Hstep).
    exists s'. cbn [get_enode_loop].
    change (0 <? RETRY_CEILING) with true. cbv iota.
    unfold bind. unfold rpc_node_info at 1.
    change (w_node_info w_empty_info (st_step s) port)
      with (@RpcReturn (option string) None).
    cbn [truthy]. rewrite Hrun. split; [reflexivity|].
    rewrite Hstep. cbn [tick st_step]. lia.
Qed.

(** ** Two runs in a row (C8) *)


Section TwoRuns.
Context (cfg : Config) (w : World).


End TwoRuns.


End Claims.

(* ===================================================================== *)
(** * The theorems at concrete environments *)
(* ===================================================================== *)

Module Witnesses.
Import PyStr Genesis GenesisFacts Exec Provision Traces Scenarios Claims.

(** Find a concrete event in a concrete trace. *)
Ltac find_event := vm_compute; repeat (first [ left; reflexivity | right ]).

Lemma extraData_layout_witness :
  exists bytes,
    bytes_of_0x
      (extraData (build_clique_genesis 1515 [ADDR_A; ADDR_B] DEFAULT_GAS_LIMIT))
    = Some bytes
    /\ bytes = repeat 0 32 ++ concat [BYTES_A; BYTES_B] ++ repeat 0 65
    /\ length bytes = (32 + 20 * length [ADDR_A; ADDR_B] + 65)%nat.
Proof.
  apply (extraData_layout 1515 DEFAULT_GAS_LIMIT
           [ADDR_A; ADDR_B] [BYTES_A; BYTES_B]).
  repeat constructor.
Defined.


Lemma init_failure_stops_before_start_witness :
  exists r s' t,
    provision_cluster cfg0 w_init_fails 1 2 1515 s0 = (r, s', t)
    /\ In (EvRun (init_cmd cfg0 (node_dir_of cfg0 2)
                    "/srv/provisioner/out/genesis_1700000000.json")
                 (quiet 1)) t
    /\ returncode (quiet 1) <> 0
    /\ (exists nd, In nd (node_paths cfg0 2) /\ r = Raise (init_error nd))
    /\ Forall (fun e => is_start e = false) t.
Proof.
  eexists _, _, _. split; [vm_compute; reflexivity|].
  assert (Hin : In (EvRun (init_cmd cfg0 (node_dir_of cfg0 2)
                    "/srv/provisioner/out/genesis_1700000000.json")
                 (quiet 1))
                (snd (provision_cluster cfg0 w_init_fails 1 2 1515 s0)))
    by find_event.
  assert (Hrc : returncode (quiet 1) <> 0) by (vm_compute; discriminate).
  split; [exact Hin|]. split; [exact Hrc|].
  eapply (init_failure_stops_before_start cfg0 w_init_fails 1 2 1515 s0);
    [vm_compute; reflexivity | exact Hin | exact Hrc].
Defined.

Lemma exhausted_discovery_stops_run_witness :
  exists r s' t,
    provision_cluster cfg0 w_unreachable 50 2 1515 s0 = (r, s', t)
    /\ Z.of_nat (failed_polls t) = RETRY_CEILING
    /\ r = Raise (enode_error (Ports.get_node_http_port 1))
    /\ add_peer_calls t = []
    /\ Forall (fun e => is_cluster_write e = false) t.
Proof.
  eexists _, _, _. split; [vm_compute; reflexivity|].
  split; [vm_compute; reflexivity|].
  eapply (exhausted_discovery_stops_run cfg0 w_unreachable 50 2 1515 s0);
    vm_compute; reflexivity.
Defined.

Lemma peering_is_best_effort_witness :
  exists r s' t,
    provision_cluster cfg0 w_peer_refuses 1 3 1515 s0 = (r, s', t)
    /\ In (EvNodeInfo 8545 (RpcReturn (Some ENODE))) t
    /\ ENODE <> ""
    /\ map fst (add_peer_calls t)
       = map (fun idx => (Ports.get_node_http_port idx, ENODE)) (range 2 (3 + 1))
    /\ add_peer_logs t
       = combine (range 2 (3 + 1))
                 (map (fun c => peer_outcome (snd c)) (add_peer_calls t))
    /\ exists rec,
         r = Ret rec
         /\ meta_num_nodes (meta rec) = 3
         /\ In (EvWrite (meta_path rec) (JsonCluster (meta rec))) t
         /\ st_fs s' !! meta_path rec = Some (JsonCluster (meta rec)).
Proof.
  eexists _, _, _. split; [vm_compute; reflexivity|].
  assert (Hin : In (EvNodeInfo 8545 (RpcReturn (Some ENODE)))
                   (snd (provision_cluster cfg0 w_peer_refuses 1 3 1515 s0)))
    by find_event.
  assert (He : ENODE <> "") by discriminate.
  split; [exact Hin|]. split; [exact He|].
  eapply (peering_is_best_effort cfg0 w_peer_refuses 1 3 1515 s0);
    [vm_compute; reflexivity | exact Hin | exact He].
Defined.


End Witnesses.

(* ===================================================================== *)
(** * Account creation *)
(* ===================================================================== *)

Module AccountFacts.
Import PyStr PyStrFacts PathFacts Exec ExecFacts Provision Traces Views
  LayoutFacts StepFacts.

(** ** What [re.search] finds *)

Lemma take_hex_all_hex s : forall_chars is_hex (take_hex s) = true.
Proof.
  induction s as [|c r IH]; [reflexivity|]. cbn [take_hex].
  destruct (is_hex c) eqn:Hc; [|reflexivity].
  cbn [forall_chars]. now rewrite Hc, IH.
Qed.

(** [take_hex] stops at the end or at a character that is no digit. *)
Lemma take_hex_maximal s :
  exists post,
    s = take_hex s +:+ post
    /\ match post with
       | EmptyString => True
       | String c _ => is_hex c = false
       end.
Proof.
  induction s as [|c r (post & Hr & Hp)].
  - exists "". split; [reflexivity | exact I].
  - cbn [take_hex]. destruct (is_hex c) eqn:Hc.
    + exists post. rewrite append_cons, <- Hr. split; [reflexivity | exact Hp].
    + exists (String c r). split; [reflexivity | exact Hc].
Qed.

Lemma search_0x_hex_at r :
  search_0x_hex (String "0" (String "x" r))
  = match take_hex r with
    | EmptyString => search_0x_hex (String "x" r)
    | h => Some ("0x" +:+ h)
    end.
Proof. reflexivity. Qed.

Lemma search_0x_hex_skip c r :
  c <> "0"%char \/ (forall r', r <> String "x" r') ->
  search_0x_hex (String c r) = search_0x_hex r.
Proof.
  intros H. destruct (ascii_dec c "0") as [->|Hc].
  - destruct H as [H|H]; [congruence|].
    destruct r as [|c' r']; [reflexivity|].
    destruct (ascii_dec c' "x") as [->|Hc']; [now destruct (H r')|].
    destruct c' as [[] [] [] [] [] [] [] []]; try reflexivity. congruence.
  - destruct c as [[] [] [] [] [] [] [] []]; try congruence;
      destruct r; reflexivity.
Qed.

Lemma search_0x_hex_sound s m :
  search_0x_hex s = Some m ->
  exists pre h post,
    s = pre +:+ m +:+ post
    /\ m = "0x" +:+ h
    /\ h <> ""
    /\ forall_chars is_hex h = true
    /\ match post with
       | EmptyString => True
       | String c _ => is_hex c = false
       end.
Proof.
  induction s as [|c r IH]; [discriminate|].
  assert (Hskip : search_0x_hex r = Some m ->
            exists pre h post,
              String c r = pre +:+ m +:+ post /\ m = "0x" +:+ h /\ h <> ""
              /\ forall_chars is_hex h = true
              /\ match post with
                 | EmptyString => True
                 | String c _ => is_hex c = false
                 end).
  { intros H. apply IH in H as (pre & h & post & -> & Hm & Hh & Hx & Hp).
    exists (String c pre), h, post. rewrite append_cons. auto. }
  destruct (ascii_dec c "0") as [->|Hc];
    [|rewrite search_0x_hex_skip by auto; exact Hskip].
  destruct r as [|c' r'];
    [rewrite search_0x_hex_skip by (right; discriminate); exact Hskip|].
  destruct (ascii_dec c' "x") as [->|Hc'];
    [|rewrite search_0x_hex_skip by (right; congruence); exact Hskip].
  rewrite search_0x_hex_at.
  destruct (take_hex r') as [|d h] eqn:Hh; [exact Hskip|].
  cbv iota. intros Hm. injection Hm as Hm. subst m.
  destruct (take_hex_maximal r') as (post & Hr & Hp). rewrite Hh in Hr.
  exists "", (String d h), post.
  split; [|split; [reflexivity|split; [discriminate|split; [|exact Hp]]]].
  - rewrite append_nil_l.
    change ("0x" +:+ String d h) with (String "0" (String "x" (String d h))).
    rewrite !append_cons. rewrite append_cons in Hr. now rewrite <- Hr.
  - rewrite <- Hh. apply take_hex_all_hex.
Qed.

(** The line [find_address] settles on. *)
Lemma find_address_sound lines a :
  find_address lines = Some a ->
  exists line,
    In line lines
    /\ contains "Address" line = true
    /\ search_0x_hex line = Some a.
Proof.
  induction lines as [|line rest IH]; [discriminate|].
  cbn [find_address].
  destruct (contains "Address" line) eqn:Hc.
  - destruct (search_0x_hex line) as [m|] eqn:Hs.
    + intros [= <-]. exists line. split; [now left | auto].
    + intros H. apply IH in H as (l & Hin & H1 & H2).
      exists l. split; [now right | auto].
  - intros H. apply IH in H as (l & Hin & H1 & H2).
    exists l. split; [now right | auto].
Qed.

Section Account.
Context (cfg : Config) (w : World).

(** [create_account] on any directory, as an equation. *)
Lemma create_account_any node_dir s :
  let pwfile := path_join node_dir "pw.txt" in
  let cmd := account_cmd cfg node_dir pwfile in
  let cp := w_run w (st_step s) cmd in
  create_account cfg w node_dir s
  = (match parsed_address cp with
     | Some a => if truthy (Some a) then Ret a
                 else Raise (account_error (account_output cp))
     | None => Raise (account_error (account_output cp))
     end,
     tick w 0 {| st_step := st_step s; st_clock := st_clock s;
                 st_fs := <[pwfile := PASSWORD]> (st_fs s) |},
     [EvWrite pwfile PASSWORD; EvPrint (Log_cmd cmd); EvRun cmd cp]).
Proof.
  cbv zeta. unfold create_account, create_password_file, run, bind,
    write_file, print, emit, subprocess_run, ret, parsed_address.
  cbn [st_step].
  destruct (find_address _) as [a|]; cbn [truthy].
  - destruct a; reflexivity.
  - reflexivity.
Qed.

(** X1. An address [create_account] returns is "0x" followed by one or
    more hexadecimal digits, as many as the report has in a row (nothing
    asks for 40), and it is cut from a line of the tool's report (standard
    output and standard error, stripped and glued) that contains the word
    "Address". *)
Theorem create_account_returns_hex node_dir s a s' t :
  create_account cfg w node_dir s = (Ret a, s', t) ->
  exists cmd cp line pre h post,
    In (EvRun cmd cp) t
    /\ In line (splitlines (strip (stdout cp) +:+ strip (stderr cp)))
    /\ contains "Address" line = true
    /\ line = pre +:+ a +:+ post
    /\ a = "0x" +:+ h
    /\ h <> ""
    /\ forall_chars is_hex h = true
    /\ match post with
       | EmptyString => True
       | String c _ => is_hex c = false
       end.
Proof.
  rewrite create_account_any. intros [= Hr <- <-].
  match type of Hr with
  | match parsed_address ?c with _ => _ end = _ => set (cp := c) in *
  end.
  parsed_cases Hr. injection Hr as <-. rename P into Hp.
  apply find_address_sound in Hp as (line & Hin & Hc & Hs).
  apply search_0x_hex_sound in Hs as (pre & h & post & Hl & Ha & Hh & Hx & Hpost).
  exists (account_cmd cfg node_dir (path_join node_dir "pw.txt")), cp,
    line, pre, h, post.
  repeat split; auto. right. right. now left.
Qed.

End Account.
End AccountFacts.

(* ===================================================================== *)
(** * Identities and directories *)
(* ===================================================================== *)

Module IdentityFacts.
Import PyStr PyStrFacts PathFacts Exec ExecFacts Provision Traces Views
  LayoutFacts StepFacts AccountFacts.

Lemma range_cons lo hi : lo < hi -> range lo hi = lo :: range (lo + 1) hi.
Proof.
  intros H. unfold range.
  replace (Z.to_nat (hi - lo)) with (S (Z.to_nat (hi - (lo + 1)))) by lia.
  cbn [seq map]. f_equal; [lia|].
  rewrite <- seq_shift, map_map. apply map_ext. intros a. lia.
Qed.

Lemma range_nil lo hi : hi <= lo -> range lo hi = [].
Proof.
  intros H. unfold range. now replace (Z.to_nat (hi - lo)) with 0%nat by lia.
Qed.

(** A cut through a range. *)
Lemma range_split lo hi pre i post :
  range lo hi = pre ++ i :: post ->
  pre = range lo i /\ post = range (i + 1) hi /\ lo <= i < hi.
Proof.
  revert lo. induction pre as [|x pre IH]; intros lo H.
  - destruct (Z_lt_le_dec lo hi) as [Hlt|Hge].
    + rewrite range_cons in H by exact Hlt. injection H as <- <-.
      rewrite range_nil by lia. auto with zarith.
    + rewrite range_nil in H by exact Hge. discriminate.
  - destruct (Z_lt_le_dec lo hi) as [Hlt|Hge].
    + rewrite range_cons in H by exact Hlt. injection H as <- H.
      apply IH in H as (-> & -> & Hi).
      rewrite (range_cons lo i) by lia. auto with zarith.
    + rewrite range_nil in H by exact Hge. discriminate.
Qed.

Lemma made_dirs_app t1 t2 : made_dirs (t1 ++ t2) = made_dirs t1 ++ made_dirs t2.
Proof.
  induction t1 as [|e t1 IH]; [reflexivity|].
  destruct e; cbn [app made_dirs]; rewrite IH; reflexivity.
Qed.

Lemma run_results_app t1 t2 :
  run_results (t1 ++ t2) = run_results t1 ++ run_results t2.
Proof.
  induction t1 as [|e t1 IH]; [reflexivity|].
  destruct e; cbn [app run_results]; rewrite IH; reflexivity.
Qed.

Section Identity.
Context (cfg : Config) (w : World).

(** Step 1 works through the nodes in order and stops at the first report
    without an address. *)
Lemma init_nodes_loop_progress idxs : forall p0 a0 s r s' t,
  init_nodes_loop cfg w idxs p0 a0 s = (r, s', t) ->
  exists done,
    made_dirs t = map (datadir_of cfg) done
    /\ map fst (run_results t) = map (account_cmd_of cfg) done
    /\ match r with
       | Ret _ => done = idxs
       | Raise _ => exists pre i post,
           idxs = pre ++ i :: post /\ done = pre ++ [i]
       | Spin => False
       end.
Proof.
  induction idxs as [|i rest IH]; intros p0 a0 s r s' t H.
  - injection H as <- <- <-. exists []. auto.
  - cbn [init_nodes_loop] in H. fold (datadir_of cfg i) in H.
    run_bind H; inv_prim E.
    run_bind H; rewrite create_account_run in E.
    + injection E as Ea <- <-.
      run_bind H; inv_prim E.
      apply IH in H as (done & Hd & Hc & Hr).
      exists (i :: done). cbn [app made_dirs run_results map fst].
      rewrite Hd, Hc. repeat split.
      destruct r as [x|e|]; auto.
      * now subst done.
      * destruct Hr as (pre & j & post & -> & ->).
        exists (i :: pre), j, post. auto.
    + injection E as Ea <- <-. exists [i]. repeat split.
      exists [], i, rest. auto.
    + exfalso. injection E as Ea _ _. parsed_cases Ea.
Qed.

(** X3. If the report for some node has no address, [init_nodes] raises
    and nothing is done for the nodes after it: the directories made and
    the account commands run are those of nodes 1..k, where k is the node
    whose report failed. *)
Theorem init_nodes_stops_at_first_failure N chain s e s' t :
  init_nodes cfg w N chain s = (Raise e, s', t) ->
  exists k,
    1 <= k <= N
    /\ made_dirs t = map (datadir_of cfg) (range 1 (k + 1))
    /\ map fst (run_results t) = map (account_cmd_of cfg) (range 1 (k + 1))
    /\ (forall i, k < i -> ~ In (EvMakedirs (datadir_of cfg i)) t).
Proof.
  unfold init_nodes. intros H.
  apply init_nodes_loop_progress in H
    as (done & Hd & Hc & pre & k & post & Hidx & ->).
  apply range_split in Hidx as (-> & -> & Hk).
  assert (Hdone : range 1 k ++ [k] = range 1 (k + 1)).
  { clear -Hk. unfold range.
    replace (Z.to_nat (k + 1 - 1)) with (S (Z.to_nat (k - 1))) by lia.
    rewrite seq_S, map_app. cbn [map Nat.add]. do 2 f_equal. lia. }
  rewrite Hdone in Hd, Hc.
  exists k. split; [lia|]. split; [exact Hd|]. split; [exact Hc|].
  intros i Hi Hin.
  assert (Hm : In (datadir_of cfg i) (made_dirs t)).
  { clear -Hin. induction t as [|ev t IH]; [contradiction|].
    destruct Hin as [->|Hin]; [now left|].
    destruct ev; cbn [made_dirs]; auto. right. auto. }
  rewrite Hd in Hm. apply in_map_iff in Hm as (j & Hj & Hin').
  apply In_range in Hin'.
  rewrite !datadir_of_eq, !node_dir_of_eq in Hj.
  apply append_inv_tail in Hj. apply append_inv_head in Hj.
  apply (append_inv_head "/node") in Hj. apply str_inj in Hj. lia.
Qed.

(** Step 1 writes nothing but the fixed credential text. *)
Lemma init_nodes_loop_files idxs : forall p0 a0 s r s' t,
  init_nodes_loop cfg w idxs p0 a0 s = (r, s', t) ->
  (forall p, st_fs s' !! p = Some PASSWORD \/ st_fs s' !! p = st_fs s !! p)
  /\ (forall x, r = Ret x ->
       forall i, In i idxs -> st_fs s' !! pwfile_of cfg i = Some PASSWORD).
Proof.
  induction idxs as [|i rest IH]; intros p0 a0 s r s' t H.
  - injection H as <- <- <-. split; [auto | contradiction].
  - cbn [init_nodes_loop] in H. fold (datadir_of cfg i) in H.
    run_bind H; inv_prim E.
    run_bind H; rewrite create_account_run in E.
    + injection E as Ea <- <-.
      run_bind H; inv_prim E.
      apply IH in H as (Hany & Hret). cbn [tick st_fs] in Hany.
      assert (Hall : forall p,
                st_fs s' !! p = Some PASSWORD \/ st_fs s' !! p = st_fs s !! p).
      { intros p. destruct (Hany p) as [Hp|Hp]; [now left|].
        destruct (decide (pwfile_of cfg i = p)) as [<-|Hne].
        - left. rewrite Hp. apply lookup_insert_eq.
        - right. rewrite Hp. now apply lookup_insert_ne. }
      split; [exact Hall|].
      intros x Hx j [<-|Hj]; [|eauto].
      destruct (Hany (pwfile_of cfg i)) as [Hp|Hp]; [exact Hp|].
      rewrite Hp. apply lookup_insert_eq.
    + injection E as Ea <- <-. cbn [tick st_fs]. split; [|discriminate].
      intros p. destruct (decide (pwfile_of cfg i = p)) as [<-|Hne].
      * left. apply lookup_insert_eq.
      * right. now apply lookup_insert_ne.
    + exfalso. injection E as Ea _ _. parsed_cases Ea.
Qed.

(** X2. After a successful step 1 every node 1..N has its credential file,
    and all of them hold the same fixed text, "password" and a newline. *)
Theorem init_nodes_writes_one_password N chain s paths addrs s' t :
  init_nodes cfg w N chain s = (Ret (paths, addrs), s', t) ->
  forall i, 1 <= i <= N -> st_fs s' !! pwfile_of cfg i = Some PASSWORD.
Proof.
  unfold init_nodes. intros H i Hi.
  apply init_nodes_loop_files in H as [_ H].
  eapply H; [reflexivity|]. apply In_range. lia.
Qed.

End Identity.

Section Directories.
Context (cfg : Config).

Lemma logfile_of_eq i :
  logfile_of cfg i = node_dir_of cfg i +:+ "/geth_" +:+ str i +:+ ".log".
Proof.
  unfold logfile_of.
  rewrite path_join_plain;
    auto using node_dir_of_no_slash, node_dir_of_not_nil.
Qed.

Lemma node_dir_of_inj : Inj (=) (=) (node_dir_of cfg).
Proof.
  intros i j H. rewrite !node_dir_of_eq in H.
  apply append_inv_head in H. apply (append_inv_head "/node") in H.
  now apply str_inj.
Qed.

(** X13. Nodes do not share directories or files: the node directory, the
    data directory, the credential file and the log file of two different
    nodes differ, and the directories of nodes 1..N are N different
    paths. *)
Theorem nodes_share_no_path (N : Z) :
  Inj (=) (=) (node_dir_of cfg)
  /\ Inj (=) (=) (datadir_of cfg)
  /\ Inj (=) (=) (pwfile_of cfg)
  /\ Inj (=) (=) (logfile_of cfg)
  /\ NoDup (node_paths cfg N)
  /\ length (node_paths cfg N) = Z.to_nat N.
Proof.
  split; [exact node_dir_of_inj|].
  split; [|split; [|split; [|split]]].
  - intros i j H. rewrite !datadir_of_eq in H.
    apply append_inv_tail in H. now apply node_dir_of_inj.
  - intros i j H. rewrite !pwfile_of_eq, !datadir_of_eq in H.
    apply append_inv_tail in H. apply append_inv_tail in H.
    now apply node_dir_of_inj.
  - intros i j H. rewrite !logfile_of_eq, !node_dir_of_eq in H.
    rewrite !append_assoc in H.
    apply append_inv_head in H. apply (append_inv_head "/node") in H.
    apply split_at_slash in H as [H _]; auto using str_not_slash.
    now apply str_inj.
  - unfold node_paths. apply NoDup_ListNoDup.
    apply Finite.Injective_map_NoDup; [exact node_dir_of_inj|].
    apply NoDup_range.
  - unfold node_paths. rewrite length_map, length_range. f_equal. lia.
Qed.

End Directories.
End IdentityFacts.

(* ===================================================================== *)
(** * A run, step by step *)
(* ===================================================================== *)

Module RunFacts.
Import PyStr PyStrFacts PathFacts Exec ExecFacts Provision Traces Views
  LayoutFacts StepFacts FlowFacts TraceFacts AccountFacts IdentityFacts.

Section Run.
Context (cfg : Config) (w : World).

Lemma run_steps_eq fuel N chain s r s' t1 t2 :
  run_steps cfg w fuel N chain s r s' t1 -> t2 = t1 ->
  run_steps cfg w fuel N chain s r s' t2.
Proof. now intros H ->. Qed.

(** Every run of [provision_cluster] is made of the runs of its steps. *)
Lemma provision_cluster_steps fuel N chain s r s' t :
  provision_cluster cfg w fuel N chain s = (r, s', t) ->
  run_steps cfg w fuel N chain s r s' t.
Proof.
  unfold provision_cluster. intros H.
  run_bind H.
  2:{ exact (Steps_accounts cfg w fuel N chain s (Raise e) _ _ E eq_refl). }
  2:{ exact (Steps_accounts cfg w fuel N chain s Spin _ _ E eq_refl). }
  destruct a as [paths addrs]. cbn [fst snd] in H.
  run_bind H; inv_prim E0.
  run_bind H; inv_prim E0.
  run_bind H; inv_prim E0.
  run_bind H.
  2:{ eapply run_steps_eq;
        [exact (Steps_init cfg w fuel N chain s _ _ _ _
                  (Raise e) _ _ E E0 eq_refl)
        | norm_trace]. }
  2:{ eapply run_steps_eq;
        [exact (Steps_init cfg w fuel N chain s _ _ _ _
                  Spin _ _ E E0 eq_refl)
        | norm_trace]. }
  run_bind H.
  2:{ eapply run_steps_eq;
        [exact (Steps_start cfg w fuel N chain s _ _ _ _ _ _ _
                  (Raise e) _ _ E E0 E1 eq_refl)
        | norm_trace]. }
  2:{ eapply run_steps_eq;
        [exact (Steps_start cfg w fuel N chain s _ _ _ _ _ _ _
                  Spin _ _ E E0 E1 eq_refl)
        | norm_trace]. }
  run_bind H.
  2:{ eapply run_steps_eq;
        [exact (Steps_discover cfg w fuel N chain s _ _ _ _ _ _ _ _ _ _
                  (Raise e) _ _ E E0 E1 E2 eq_refl)
        | norm_trace]. }
  2:{ eapply run_steps_eq;
        [exact (Steps_discover cfg w fuel N chain s _ _ _ _ _ _ _ _ _ _
                  Spin _ _ E E0 E1 E2 eq_refl)
        | norm_trace]. }
  run_bind H; inv_prim E3.
  run_bind H;
    try (exfalso; apply peer_loop_spec in E3 as [E3 _]; discriminate E3).
  cbv [bind time_time write_file ret] in H. cbn [st_clock st_step st_fs] in H.
  injection H as <- <- <-.
  eapply run_steps_eq;
    [exact (Steps_done cfg w fuel N chain s _ _ _ _ _ _ _ _ _ _ _ _ _ _ _ _
              E E0 E1 E2 E3)
    | norm_trace].
Qed.

End Run.
End RunFacts.

(* ===================================================================== *)
(** * Discovery *)
(* ===================================================================== *)

Module DiscoveryFacts.
Import PyStr PyStrFacts PathFacts Exec ExecFacts Provision Traces Views
  LayoutFacts StepFacts FlowFacts TraceFacts.

Lemma polls_app t1 t2 : polls (t1 ++ t2) = polls t1 ++ polls t2.
Proof.
  induction t1 as [|e t1 IH]; [reflexivity|].
  destruct e; cbn [app polls]; rewrite IH; reflexivity.
Qed.

Lemma slept_app t1 t2 : slept (t1 ++ t2) = slept t1 + slept t2.
Proof.
  induction t1 as [|e t1 IH]; [reflexivity|].
  destruct e; cbn [app slept]; rewrite IH; lia.
Qed.

Section Discovery.
Context (w : World).

(** Every poll goes to the port asked for, and every poll that raises
    costs one second of sleep. *)
Lemma get_enode_loop_cost port : forall fuel a s r s' t,
  get_enode_loop w fuel port a s = (r, s', t) ->
  Forall (fun p => fst p = port) (polls t)
  /\ slept t = Z.of_nat (failed_polls t)
  /\ (failed_polls t <= length (polls t))%nat
  /\ st_clock s + MICROS * Z.of_nat (failed_polls t) <= st_clock s'.
Proof.
  induction fuel as [|fuel IH]; intros a s r s' t H.
  - cbn [get_enode_loop] in H.
    destruct (a <? RETRY_CEILING); injection H as <- <- <-;
      cbn; repeat split; auto; lia.
  - cbn [get_enode_loop] in H.
    destruct (a <? RETRY_CEILING).
    2:{ injection H as <- <- <-. cbn. repeat split; auto; lia. }
    run_bind H; unfold rpc_node_info in E; try discriminate E.
    injection E as <- <- <-.
    destruct (w_node_info w (st_step s) port) as [o|] eqn:Hw.
    + destruct (truthy o) eqn:Ho.
      * destruct o as [e|]; [|discriminate Ho].
        injection H as <- <- <-. cbn. repeat split; auto; lia.
      * assert (H' : get_enode_loop w fuel port a (tick w 0 s)
                     = (r, s', t1)) by (destruct o; exact H).
        apply IH in H' as (Hp & Hs & Hl & Hc).
        cbn [tick st_clock] in Hc.
        rewrite polls_app, slept_app, failed_polls_app.
        change (failed_polls [EvNodeInfo port (RpcReturn o)]) with 0%nat.
        cbn [polls slept app length Nat.add].
        repeat split; auto; lia.
    + run_bind H; inv_prim E.
      apply IH in H as (Hp & Hs & Hl & Hc).
      cbn [tick st_clock st_step] in Hc.
      rewrite !polls_app, !slept_app, !failed_polls_app.
      change (failed_polls [EvNodeInfo port RpcRaise]) with 1%nat.
      change (failed_polls [EvSleep 1]) with 0%nat.
      cbn [polls slept app length Nat.add].
      unfold MICROS in *. repeat split; auto; lia.
Qed.

(** X9. When discovery gives up, ten polls have raised, each followed by
    one second of sleep: the caller has waited ten seconds or more, and
    every poll went to the port asked for. *)
Theorem failed_discovery_costs_ten_seconds fuel port s e s' t :
  get_enode_via_rpc w fuel port s = (Raise e, s', t) ->
  e = enode_error port
  /\ failed_polls t = 10%nat
  /\ slept t = 10
  /\ (10 <= length (polls t))%nat
  /\ Forall (fun p => fst p = port) (polls t)
  /\ st_clock s + 10 * MICROS <= st_clock s'.
Proof.
  unfold get_enode_via_rpc. intros H.
  pose proof (get_enode_loop_cost _ _ _ _ _ _ _ H) as (Hp & Hs & Hl & Hc).
  apply get_enode_loop_spec in H as (_ & _ & _ & -> & Hn & _);
    [|unfold RETRY_CEILING; lia].
  unfold RETRY_CEILING in Hn.
  assert (Hten : failed_polls t = 10%nat) by lia.
  rewrite Hten in *. repeat split; auto; lia.
Qed.

(** X10. The address discovery returns is not empty and is the one in the
    last answer of the trace; every answer before it raised or had no
    address, fewer than ten of them raised, and the wait was one second
    for each of those. *)
Theorem discovery_returns_first_usable_answer fuel port s e s' t :
  get_enode_via_rpc w fuel port s = (Ret e, s', t) ->
  e <> ""
  /\ (exists t0,
        t = t0 ++ [EvNodeInfo port (RpcReturn (Some e))]
        /\ Forall (fun ev => is_usable_node_info ev = false) t0)
  /\ (failed_polls t < 10)%nat
  /\ slept t = Z.of_nat (failed_polls t)
  /\ Forall (fun p => fst p = port) (polls t).
Proof.
  unfold get_enode_via_rpc. intros H.
  pose proof (get_enode_loop_cost _ _ _ _ _ _ _ H) as (Hp & Hs & Hl & Hc).
  apply get_enode_loop_spec in H as (_ & _ & _ & He & Hn & Ht);
    [|unfold RETRY_CEILING; lia].
  unfold RETRY_CEILING in Hn. repeat split; auto; lia.
Qed.

End Discovery.
End DiscoveryFacts.

(* ===================================================================== *)
(** * How a run can end *)
(* ===================================================================== *)

Module OutcomeFacts.
Import PyStr PyStrFacts PathFacts Genesis Exec ExecFacts Provision Traces Views
  LayoutFacts StepFacts FlowFacts TraceFacts AccountFacts IdentityFacts
  RunFacts DiscoveryFacts.

(** The cases of an event, and a class hypothesis put to use (as in the
    proofs about whole runs). *)
Ltac cases_of e :=
  destruct e as [[]| | ? []| | | ? [[[]|]|] | ? ? []|]; cbn in *.

Ltac from_class H :=
  eapply List.Forall_impl; [|exact H];
  let e := fresh "e" in
  intros e ?; cases_of e;
  try contradiction; try discriminate; auto.

(** ** The three errors *)

Lemma account_error_not_init out nd : account_error out <> init_error nd.
Proof.
  unfold account_error, init_error. intros H. injection H as H.
  cbv [String.append] in H. discriminate H.
Qed.

Lemma account_error_not_enode out port : account_error out <> enode_error port.
Proof.
  unfold account_error, enode_error. intros H. injection H as H.
  cbv [String.append] in H. discriminate H.
Qed.

Lemma init_error_not_enode nd port : init_error nd <> enode_error port.
Proof.
  unfold init_error, enode_error. intros H. injection H as H.
  cbv [String.append] in H. discriminate H.
Qed.

Lemma init_error_inj nd1 nd2 : init_error nd1 = init_error nd2 -> nd1 = nd2.
Proof.
  unfold init_error. intros H. injection H as H. exact H.
Qed.

Section Outcomes.
Context (cfg : Config) (w : World).

(** X4. A run that ends with the account error has done nothing beyond
    step 1: its trace has only directory creations, credential writes,
    account commands and their log lines; no genesis descriptor was
    written, no node initialised or started, no RPC call made. *)
Theorem account_failure_stops_before_genesis fuel N chain s out s' t :
  provision_cluster cfg w fuel N chain s = (Raise (account_error out), s', t) ->
  Forall (account_event cfg) t
  /\ Forall (fun e => is_genesis_write e = false) t
  /\ Forall (fun e => is_start e = false) t
  /\ polls t = []
  /\ add_peer_calls t = [].
Proof.
  intros H. apply provision_cluster_shape in H.
  inversion H as [ta out' s1 Hta| | | |]; subst.
  split; [exact Hta|]. split; [from_class Hta|]. split; [from_class Hta|].
  split.
  - clear -Hta. induction Hta as [|e t He _ IH]; [reflexivity|].
    cases_of e; auto; contradiction.
  - apply add_peer_calls_none. from_class Hta.
Qed.

(** X11. What the entry point answers.  It never raises.  Its answer is the
    record of a completed run, or one of three errors: an account error, the
    init error of one of the N node directories, or the discovery error for
    port 8545.  An [IndexError] from the lookup of a node's address cannot
    happen. *)
Theorem api_provision_answers fuel N chain s r s' t :
  api_provision cfg w fuel N chain s = (r, s', t) ->
  match r with
  | Ret (ResponseOk rec) =>
      provision_cluster cfg w fuel N chain s = (Ret rec, s', t)
  | Ret (ResponseError e) =>
      provision_cluster cfg w fuel N chain s = (Raise e, s', t)
      /\ ((exists out, e = account_error out)
          \/ (exists nd, In nd (node_paths cfg N) /\ e = init_error nd)
          \/ e = enode_error Ports.HTTP_BASE)
  | Raise _ => False
  | Spin => provision_cluster cfg w fuel N chain s = (Spin, s', t)
  end.
Proof.
  unfold api_provision.
  destruct (provision_cluster cfg w fuel N chain s) as [[r0 s0] t0] eqn:H.
  destruct r0 as [rec|e|]; intros [= <- <- <-]; auto.
  split; [reflexivity|].
  apply provision_cluster_shape in H.
  inversion H; subst; eauto.
Qed.

(** X19. A completed run takes at least two seconds for every node: the
    clock has moved on by 2*N seconds or more, and the timestamp of the
    record is at least 2*N seconds after the reading in the name of the
    genesis file. *)
Theorem completed_run_takes_two_seconds_per_node fuel N chain s rec s' t :
  provision_cluster cfg w fuel N chain s = (Ret rec, s', t) ->
  0 <= N ->
  st_clock s + 2 * MICROS * N <= st_clock s'
  /\ exists tgen tmeta,
       meta_genesis (meta rec) = genesis_file cfg tgen
       /\ meta_timestamp (meta rec) = int_seconds tmeta
       /\ tgen + 2 * MICROS * N <= tmeta.
Proof.
  intros H HN. apply provision_cluster_shape in H.
  inversion H; subst. cbn [meta meta_genesis meta_timestamp].
  replace (Z.of_nat (Z.to_nat N)) with N in * by lia.
  split; [unfold MICROS in *; lia|].
  exists tgen, tmeta. auto.
Qed.

(** X7. The record of a completed run agrees with what is on disk: it
    counts N nodes, lists N signers and N process identifiers (none when
    N is negative), the file it names as genesis holds the descriptor built
    from exactly these signers, and the record file holds the record. *)
Theorem completed_record_matches_disk fuel N chain s rec s' t :
  provision_cluster cfg w fuel N chain s = (Ret rec, s', t) ->
  meta_num_nodes (meta rec) = N
  /\ length (meta_signers (meta rec)) = Z.to_nat N
  /\ length (meta_pids (meta rec)) = Z.to_nat N
  /\ st_fs s' !! meta_genesis (meta rec)
     = Some (JsonGenesis
               (build_clique_genesis chain (meta_signers (meta rec))
                  DEFAULT_GAS_LIMIT))
  /\ st_fs s' !! meta_path rec = Some (JsonCluster (meta rec))
  /\ In (EvWrite (meta_path rec) (JsonCluster (meta rec))) t.
Proof.
  intros H. apply provision_cluster_shape in H.
  inversion H; subst. cbn [meta meta_path meta_num_nodes meta_signers
                            meta_pids meta_genesis].
  repeat split; auto.
  repeat (apply in_or_app; right). now left.
Qed.

End Outcomes.
End OutcomeFacts.
